(** * RAG chat application: the browser page and the API proxy

    A shallow embedding of [my-app/app/page.tsx] (the [Home] component and
    its event handlers) and of the catch-all API route [handler], together
    with the properties of the HTTP surface they implement.

    The JavaScript values that cross the network are untyped at run time
    (the TypeScript annotations are erased), so response bodies are kept as
    JSON values and the handlers are followed on every such value. *)

From Stdlib Require Import Ascii String ZArith.
From stdpp Require Import base strings list gmap pretty.

Open Scope string_scope.

(** ** JavaScript values *)

Module JS.

(** The result of [JSON.parse]. Strings are sequences of code units below
    256. A number is held as the text JavaScript prints for it
    ([Number::toString]: [0], [4.5], [1e+21], [Infinity], ...), which tells
    the numbers apart up to the sign of zero. An object is the list of its
    own properties, in insertion order. *)
#[warnings="-register-all"]
Inductive json : Type :=
| JNull
| JBool (b : bool)
| JNum (printed : string)
| JStr (s : string)
| JArr (items : list json)
| JObj (props : list (string * json)).

(** A JavaScript value that may be [undefined]. *)
Definition jsval : Type := option json.
Definition undefined : jsval := None.

(** What a [throw] carries: an [Error] (or a subclass) with its message, or
    anything else. *)
Inductive thrown : Type :=
| ErrorObj (message : string)
| NonError (v : jsval).

Inductive result (A : Type) : Type :=
| Ok (a : A)
| Throw (e : thrown).
Arguments Ok {A} a.
Arguments Throw {A} e.

(** ToBoolean. *)
Definition truthy (v : json) : bool :=
  match v with
  | JNull => false
  | JBool b => b
  | JNum printed => negb (String.eqb printed "0")
  | JStr s => negb (String.eqb s "")
  | JArr _ | JObj _ => true
  end.

Definition truthy_string (s : string) : bool := negb (String.eqb s "").

Fixpoint assoc (k : string) (props : list (string * json)) : jsval :=
  match props with
  | [] => undefined
  | (k', v) :: rest => if String.eqb k k' then Some v else assoc k rest
  end.

(** The message of the [TypeError] raised by reading a property of [null]. *)
Definition null_access_message (k : string) : string :=
  "Cannot read properties of null (reading '" +:+ k +:+ "')".

(** [v.k] for a parsed JSON value [v] and a key [k] that is not a built-in
    property of strings or arrays. *)
Definition prop (v : json) (k : string) : result jsval :=
  match v with
  | JNull => Throw (ErrorObj (null_access_message k))
  | JObj props => Ok (assoc k props)
  | _ => Ok undefined
  end.

(** ToString, as [new Error(v)] applies it to its argument [v]: the
    message of the error is [ToString v]. *)
Fixpoint ToString (v : json) : string :=
  match v with
  | JNull => "null"
  | JBool true => "true"
  | JBool false => "false"
  | JNum printed => printed
  | JStr s => s
  | JArr items =>
      String.concat ","
        (map (fun x => match x with JNull => "" | _ => ToString x end) items)
  | JObj _ => "[object Object]"
  end.

(** [items.map(f)] for a callback [f] that may throw: the first exception
    ends the loop. *)
Fixpoint Array_map {A B : Type} (f : A → result B) (items : list A) : result (list B) :=
  match items with
  | [] => Ok []
  | x :: rest =>
      match f x with
      | Ok y =>
          match Array_map f rest with
          | Ok ys => Ok (y :: ys)
          | Throw e => Throw e
          end
      | Throw e => Throw e
      end
  end.

(** [error instanceof Error ? error.message : fallback]. *)
Definition message_or (e : thrown) (fallback : string) : string :=
  match e with
  | ErrorObj m => m
  | NonError _ => fallback
  end.

(** *** [JSON.stringify]

    A number that is not finite is written [null]. *)

Definition dquote : ascii := ascii_of_nat 34.
Definition backslash : ascii := ascii_of_nat 92.

Definition hex_digit (n : nat) : ascii :=
  if (n <? 10)%nat then ascii_of_nat (48 + n) else ascii_of_nat (87 + n).

Definition quote_char (c : ascii) : string :=
  let n := nat_of_ascii c in
  if (n =? 34)%nat then String backslash (String dquote "")
  else if (n =? 92)%nat then String backslash (String backslash "")
  else if (n =? 8)%nat then String backslash "b"
  else if (n =? 9)%nat then String backslash "t"
  else if (n =? 10)%nat then String backslash "n"
  else if (n =? 12)%nat then String backslash "f"
  else if (n =? 13)%nat then String backslash "r"
  else if (n <? 32)%nat then
    String backslash ("u00" +:+ String (hex_digit (n / 16)) (String (hex_digit (n mod 16)) ""))
  else String c "".

Fixpoint quote_chars (s : string) : string :=
  match s with
  | EmptyString => ""
  | String c rest => quote_char c +:+ quote_chars rest
  end.

Definition quote (s : string) : string :=
  String dquote (quote_chars s +:+ String dquote "").

Fixpoint JSON_stringify (v : json) : string :=
  match v with
  | JNull => "null"
  | JBool true => "true"
  | JBool false => "false"
  | JNum printed =>
      if String.eqb printed "Infinity" || String.eqb printed "-Infinity"
      then "null" else printed
  | JStr s => quote s
  | JArr items => "[" +:+ String.concat "," (map JSON_stringify items) +:+ "]"
  | JObj props =>
      "{" +:+ String.concat ","
                (map (fun kv => quote (fst kv) +:+ ":" +:+ JSON_stringify (snd kv)) props)
          +:+ "}"
  end.

(** *** [String.prototype.trim] *)

Definition is_whitespace (c : ascii) : bool :=
  let n := nat_of_ascii c in
  ((9 <=? n)%nat && (n <=? 13)%nat) || (n =? 32)%nat || (n =? 160)%nat.

Fixpoint trimStart (s : string) : string :=
  match s with
  | EmptyString => ""
  | String c rest => if is_whitespace c then trimStart rest else s
  end.

Fixpoint trimEnd (s : string) : string :=
  match s with
  | EmptyString => ""
  | String c rest =>
      match trimEnd rest with
      | EmptyString => if is_whitespace c then "" else String c ""
      | t => String c t
      end
  end.

Definition trim (s : string) : string := trimEnd (trimStart s).

(** [s.endsWith(suffix)] *)
Definition endsWith (s suffix : string) : bool :=
  let n := String.length s in
  let k := String.length suffix in
  (k <=? n)%nat && String.eqb (substring (n - k) k s) suffix.

End JS.
Export JS.

(** ** The HTTP exchange, as [fetch] presents it *)

Module Http.

(** A browser [File]. *)
Record File : Type := mkFile {
  file_name : string;
  file_size : Z;
  file_type : string;
  file_content : string;
}.

Inductive FormValue : Type :=
| FormFile (f : File)
| FormString (s : string).

(** [FormData]: the entries in the order they were appended. *)
Definition FormData : Type := list (string * FormValue).

(** A request body: none, the text [JSON.stringify(v)] (kept as the value
    [v] it serialises; [undefined] serialises to no body), or a multipart
    form. *)
Inductive Body : Type :=
| NoBody
| JsonText (v : jsval)
| Multipart (form : FormData).

(** A [Response]. [json_body] is what [await response.json()] gives;
    [text_after_json] is what [await response.text()] gives once
    [response.json()] has been tried. The body has been read by then, and
    [text()] rejects with a [TypeError] on the platforms that follow the
    Fetch standard: there the field holds that rejection. *)
Record Response : Type := mkResponse {
  status : Z;
  statusText : string;
  json_body : result json;
  text_after_json : result string;
}.

(** [response.ok]: the status is in the range 200-299. *)
Definition ok (r : Response) : bool :=
  ((200 <=? status r) && (status r <=? 299))%Z.

End Http.
Export Http.

(** ** The page: [my-app/app/page.tsx] *)

Module Page.

Inductive Role : Type := user | assistant.

Definition role_name (r : Role) : string :=
  match r with
  | user => "user"
  | assistant => "assistant"
  end.

(** [type Message]. [content] and [source] come from the network for
    assistant messages, so they hold whatever the body held; a missing
    property is [undefined]. *)
Record Message : Type := mkMessage {
  role : Role;
  content : jsval;
  source : jsval;
}.

(** [type DocumentInfo], the shape the page expects of each listed
    document. *)
Record DocumentInfo : Type := mkDocumentInfo {
  filename : string;
  size : Z;
  type : string;
  created_at : Z;
  last_modified : Z;
}.

Module UploadStatus.
Inductive t : Type := idle | uploading | success | error.
End UploadStatus.

(** The paths fetched under [API_BASE_URL]; the file name of [RDocument]
    is the one passed through [encodeURIComponent]. *)
Inductive Route : Type :=
| RChat
| RUploadDocument
| RDocuments
| RDocument (name : string).

Record Url : Type := mkUrl {
  url_base : string;
  url_route : Route;
}.

Record Request : Type := mkRequest {
  req_method : string;
  req_url : Url;
  req_headers : list (string * string);
  req_body : Body;
}.

(** The component state ([useState]) and the value of the file input
    behind [fileInputRef] ([None] while the ref is not attached). *)
Record State : Type := mkState {
  messages : list Message;
  input : string;
  isLoading : bool;
  documents : json;
  uploadStatus : UploadStatus.t;
  isSidebarOpen : bool;
  dragActive : bool;
  error : option string;
  fileInput : option string;
}.

Definition initial_state : State :=
  {| messages := []; input := ""; isLoading := false; documents := JArr [];
     uploadStatus := UploadStatus.idle; isSidebarOpen := false;
     dragActive := false; error := None; fileInput := Some "" |}.

(** Replacing one component of the state. *)
Definition with_messages (v : list Message) (st : State) : State :=
  {| messages := v; input := input st; isLoading := isLoading st;
     documents := documents st; uploadStatus := uploadStatus st;
     isSidebarOpen := isSidebarOpen st;
     dragActive := dragActive st; error := error st; fileInput := fileInput st |}.

Definition with_input (v : string) (st : State) : State :=
  {| messages := messages st; input := v; isLoading := isLoading st;
     documents := documents st; uploadStatus := uploadStatus st;
     isSidebarOpen := isSidebarOpen st;
     dragActive := dragActive st; error := error st; fileInput := fileInput st |}.

Definition with_isLoading (v : bool) (st : State) : State :=
  {| messages := messages st; input := input st; isLoading := v;
     documents := documents st; uploadStatus := uploadStatus st;
     isSidebarOpen := isSidebarOpen st;
     dragActive := dragActive st; error := error st; fileInput := fileInput st |}.

Definition with_documents (v : json) (st : State) : State :=
  {| messages := messages st; input := input st; isLoading := isLoading st;
     documents := v; uploadStatus := uploadStatus st;
     isSidebarOpen := isSidebarOpen st;
     dragActive := dragActive st; error := error st; fileInput := fileInput st |}.

Definition with_uploadStatus (v : UploadStatus.t) (st : State) : State :=
  {| messages := messages st; input := input st; isLoading := isLoading st;
     documents := documents st; uploadStatus := v;
     isSidebarOpen := isSidebarOpen st;
     dragActive := dragActive st; error := error st; fileInput := fileInput st |}.

Definition with_isSidebarOpen (v : bool) (st : State) : State :=
  {| messages := messages st; input := input st; isLoading := isLoading st;
     documents := documents st; uploadStatus := uploadStatus st;
     isSidebarOpen := v;
     dragActive := dragActive st; error := error st; fileInput := fileInput st |}.

Definition with_dragActive (v : bool) (st : State) : State :=
  {| messages := messages st; input := input st; isLoading := isLoading st;
     documents := documents st; uploadStatus := uploadStatus st;
     isSidebarOpen := isSidebarOpen st;
     dragActive := v; error := error st; fileInput := fileInput st |}.

Definition with_error (v : option string) (st : State) : State :=
  {| messages := messages st; input := input st; isLoading := isLoading st;
     documents := documents st; uploadStatus := uploadStatus st;
     isSidebarOpen := isSidebarOpen st;
     dragActive := dragActive st; error := v; fileInput := fileInput st |}.

Definition with_fileInput (v : option string) (st : State) : State :=
  {| messages := messages st; input := input st; isLoading := isLoading st;
     documents := documents st; uploadStatus := uploadStatus st;
     isSidebarOpen := isSidebarOpen st;
     dragActive := dragActive st; error := error st; fileInput := v |}.

Inductive Timer : Type := ResetUploadStatus.

(** What a handler does to the outside, in order. A state setter is
    recorded with the value it stores; [RenderFails] is a state updater
    that throws when React runs it. *)
Inductive Effect : Type :=
| Fetch (req : Request)
| Confirm (text : string)
| SetMessages (v : list Message)
| RenderFails (e : thrown)
| SetInput (v : string)
| SetIsLoading (v : bool)
| SetDocuments (v : json)
| SetUploadStatus (v : UploadStatus.t)
| SetIsSidebarOpen (v : bool)
| SetDragActive (v : bool)
| SetError (v : option string)
| ClearFileInput
| SetTimeout (ms : Z) (callback : Timer).

(** The surroundings of the page: the build-time [NODE_ENV], the network
    behind [fetch] and the user behind [confirm]. *)
Class Platform (Env : Type) : Type := {
  NODE_ENV : string;
  fetch : Request → Env → result Response * Env;
  confirm : string → Env → bool * Env;
}.

Record World (Env : Type) : Type := mkWorld {
  ui : State;
  env : Env;
  trace : list Effect;
}.
Arguments mkWorld {Env} ui env trace.
Arguments ui {Env} w.
Arguments env {Env} w.
Arguments trace {Env} w.

(** *** Handlers as state-and-exception computations *)

Definition M (Env A : Type) : Type := World Env → result A * World Env.

Definition ret {Env A} (a : A) : M Env A := fun w => (Ok a, w).

Definition throw {Env A} (e : thrown) : M Env A := fun w => (Throw e, w).

Definition bind {Env A B} (m : M Env A) (k : A → M Env B) : M Env B :=
  fun w =>
    match m w with
    | (Ok a, w') => k a w'
    | (Throw e, w') => (Throw e, w')
    end.

Notation "x ← m ; k" := (bind m (fun x => k))
  (at level 20, m at level 100, k at level 200, only parsing).
Notation "m ;; k" := (bind m (fun _ => k))
  (at level 100, k at level 200, right associativity).

(** [try { body } catch (e) { handler e }]. *)
Definition try_catch {Env A} (body : M Env A) (handler : thrown → M Env A) : M Env A :=
  fun w =>
    match body w with
    | (Ok a, w') => (Ok a, w')
    | (Throw e, w') => handler e w'
    end.

(** [try { body } finally { cleanup }]. *)
Definition finally {Env A} (body : M Env A) (cleanup : M Env unit) : M Env A :=
  fun w =>
    match body w with
    | (r, w') =>
        match cleanup w' with
        | (Ok _, w'') => (r, w'')
        | (Throw e, w'') => (Throw e, w'')
        end
    end.

(** [await] of a promise that has settled to [r]. *)
Definition await {Env A} (r : result A) : M Env A := fun w => (r, w).

(** [if (c) { body }]. *)
Definition when {Env} (c : bool) (body : M Env unit) : M Env unit :=
  if c then body else ret ().

Section Handlers.
Context {Env : Type} `{!Platform Env}.

Definition update (f : State → State) (e : State → Effect) : M Env unit :=
  fun w =>
    let st := f (ui w) in
    (Ok (), {| ui := st; env := env w; trace := (trace w ++ [e st])%list |}).

Definition setMessages (f : list Message → list Message) : M Env unit :=
  update (fun st => with_messages (f (messages st)) st) (fun st => SetMessages (messages st)).

(** [setMessages(updater)] for an updater that may throw. React runs the
    updater on its own, while rendering: the exception does not reach the
    handler that queued it, the render fails instead. *)
Definition setMessagesWith (updater : list Message → result (list Message)) : M Env unit :=
  fun w =>
    match updater (messages (ui w)) with
    | Ok v => update (with_messages v) (fun _ => SetMessages v) w
    | Throw e =>
        (Ok (), {| ui := ui w; env := env w; trace := (trace w ++ [RenderFails e])%list |})
    end.

Definition setInput (v : string) : M Env unit :=
  update (with_input v) (fun _ => SetInput v).

Definition setIsLoading (v : bool) : M Env unit :=
  update (with_isLoading v) (fun _ => SetIsLoading v).

Definition setDocuments (v : json) : M Env unit :=
  update (with_documents v) (fun _ => SetDocuments v).

Definition setUploadStatus (v : UploadStatus.t) : M Env unit :=
  update (with_uploadStatus v) (fun _ => SetUploadStatus v).

Definition setIsSidebarOpen (v : bool) : M Env unit :=
  update (with_isSidebarOpen v) (fun _ => SetIsSidebarOpen v).

Definition setDragActive (v : bool) : M Env unit :=
  update (with_dragActive v) (fun _ => SetDragActive v).

Definition setError (v : option string) : M Env unit :=
  update (with_error v) (fun _ => SetError v).

(** [if (fileInputRef.current) fileInputRef.current.value = ''] *)
Definition clearFileInput : M Env unit :=
  fun w =>
    match fileInput (ui w) with
    | Some _ => update (with_fileInput (Some "")) (fun _ => ClearFileInput) w
    | None => (Ok (), w)
    end.

Definition setTimeout (callback : Timer) (ms : Z) : M Env unit :=
  fun w =>
    (Ok (), {| ui := ui w; env := env w;
               trace := (trace w ++ [SetTimeout ms callback])%list |}).

(** The callback [() => setUploadStatus('idle')] of the timer. *)
Definition timer_fired (callback : Timer) : M Env unit :=
  match callback with
  | ResetUploadStatus => setUploadStatus UploadStatus.idle
  end.

Definition do_fetch (req : Request) : M Env Response :=
  fun w =>
    let '(r, e) := fetch req (env w) in
    (r, {| ui := ui w; env := e; trace := (trace w ++ [Fetch req])%list |}).

Definition do_confirm (text : string) : M Env bool :=
  fun w =>
    let '(b, e) := confirm text (env w) in
    (Ok b, {| ui := ui w; env := e; trace := (trace w ++ [Confirm text])%list |}).

Definition API_BASE_URL : string :=
  if String.eqb NODE_ENV "development" then "http://127.0.0.1:8000/api" else "/api".

Definition api (r : Route) : Url := {| url_base := API_BASE_URL; url_route := r |}.

(** [a || b] where [b] is never [undefined]. *)
Definition or_default (a : jsval) (b : json) : json :=
  match a with
  | Some j => if truthy j then j else b
  | None => b
  end.

(** The block run on a response that is not [ok], in [fetchDocuments] and
    in [uploadFile]:
    [let errorMsg = fallback;
     try { const errorData = await response.json();
           errorMsg = errorData.detail || JSON.stringify(errorData); }
     catch { const text = await response.text(); if (text) errorMsg = text; }
     throw new Error(errorMsg);] *)
Definition throw_http_error (fallback : string) (response : Response) : M Env unit :=
  errorMsg ←
    try_catch
      (errorData ← await (json_body response);
       detail ← await (prop errorData "detail");
       ret (or_default detail (JStr (JSON_stringify errorData))))
      (fun _ =>
         text ← await (text_after_json response);
         ret (JStr (if truthy_string text then text else fallback)));
  throw (ErrorObj (ToString errorMsg)).

Definition documents_request : Request :=
  {| req_method := "GET"; req_url := api RDocuments;
     req_headers := [("Accept", "application/json")]; req_body := NoBody |}.

Definition fetchDocuments : M Env unit :=
  try_catch
    (response ← do_fetch documents_request;
     when (negb (ok response))
       (throw_http_error
          ("Failed to fetch documents: " +:+ pretty (status response) +:+ " "
             +:+ statusText response)
          response);;
     data ← await (json_body response);
     docs ← await (prop data "documents");
     setDocuments (or_default docs (JArr [])))
    (fun error =>
       setError (Some (message_or error "Failed to load documents"));;
       setDocuments (JArr [])).

(** JSON form of a message, as [JSON.stringify] writes it: properties that
    are [undefined] are left out. *)
Definition optional_prop (k : string) (v : jsval) : list (string * json) :=
  match v with
  | Some j => [(k, j)]
  | None => []
  end.

Definition message_json (m : Message) : json :=
  JObj (("role", JStr (role_name (role m)))
          :: (optional_prop "content" (content m) ++ optional_prop "source" (source m))%list).

Definition chat_request (input : string) (messages : list Message) : Request :=
  {| req_method := "POST"; req_url := api RChat;
     req_headers := [("Content-Type", "application/json")];
     req_body := JsonText (Some (JObj [("message", JStr input);
                                         ("history", JArr (map message_json messages))])) |}.

Definition chat_error_message : Message :=
  {| role := assistant;
     content := Some (JStr "Sorry, I encountered an error. Please try again.");
     source := undefined |}.

(** [handleSendMessage], closed over the [input] and [messages] of the
    render [snap] in which the form was submitted. *)
Definition handleSendMessage (snap : State) : M Env unit :=
  if negb (truthy_string (trim (input snap))) then ret () else
  let userMessage := {| role := user; content := Some (JStr (input snap)); source := undefined |} in
  setMessages (fun prev => (prev ++ [userMessage])%list);;
  setInput "";;
  setIsLoading true;;
  finally
    (try_catch
       (response ← do_fetch (chat_request (input snap) (messages snap));
        when (negb (ok response)) (throw (ErrorObj "Failed to get response"));;
        data ← await (json_body response);
        setMessagesWith
          (fun prev =>
             match prop data "response", prop data "source" with
             | Ok response_field, Ok source_field =>
                 Ok (prev ++ [{| role := assistant;
                                 content := response_field;
                                 source := source_field |}])%list
             | Throw e, _ | _, Throw e => Throw e
             end))
       (fun _ => setMessages (fun prev => (prev ++ [chat_error_message])%list)))
    (setIsLoading false).

Definition upload_request (file : File) : Request :=
  {| req_method := "POST"; req_url := api RUploadDocument;
     req_headers := [("Accept", "application/json")];
     req_body := Multipart [("file", FormFile file);
                            ("filename", FormString (file_name file))] |}.

Definition upload_fallback_message : string :=
  "Failed to upload document. Please check the console for details.".

(** [uploadFile]; the argument is [None] for a missing file. It returns
    the parsed body of the upload response, or rethrows. *)
Definition uploadFile (file : option File) : M Env jsval :=
  match file with
  | None => ret undefined
  | Some file =>
      setUploadStatus UploadStatus.uploading;;
      setError None;;
      finally
        (try_catch
           (response ← do_fetch (upload_request file);
            when (negb (ok response))
              (throw_http_error
                 ("Server error: " +:+ pretty (status response) +:+ " "
                    +:+ statusText response)
                 response);;
            result ← await (json_body response);
            fetchDocuments;;
            setUploadStatus UploadStatus.success;;
            setTimeout ResetUploadStatus 3000;;
            ret (Some result))
           (fun error =>
              setUploadStatus UploadStatus.error;;
              setError (Some (message_or error upload_fallback_message));;
              throw error))
        clearFileInput
  end.

(** [handleFileChange], given [e.target.files]. *)
Definition handleFileChange (files : list File) : M Env unit :=
  match head files with
  | None => ret ()
  | Some file => try_catch (uploadFile (Some file);; ret ()) (fun _ => ret ())
  end.

(** [handleDrag], given [e.type]. *)
Definition handleDrag (event_type : string) : M Env unit :=
  if String.eqb event_type "dragenter" || String.eqb event_type "dragover"
  then setDragActive true
  else if String.eqb event_type "dragleave" then setDragActive false
  else ret ().

(** [handleDrop], given [e.dataTransfer.files]. *)
Definition handleDrop (files : list File) : M Env unit :=
  setDragActive false;;
  match head files with
  | None => ret ()
  | Some file =>
      if String.eqb (file_type file) "application/pdf"
         || String.eqb (file_type file) "text/plain"
         || endsWith (file_name file) ".pdf"
         || endsWith (file_name file) ".txt"
      then try_catch (uploadFile (Some file);; ret ()) (fun _ => ret ())
      else setError (Some "Only PDF and text files are allowed")
  end.

Definition delete_request (filename : string) : Request :=
  {| req_method := "DELETE"; req_url := api (RDocument filename);
     req_headers := []; req_body := NoBody |}.

Definition handleDeleteDocument (filename : string) : M Env unit :=
  confirmed ← do_confirm ("Are you sure you want to delete " +:+ filename +:+ "?");
  if negb confirmed then ret () else
  try_catch
    (response ← do_fetch (delete_request filename);
     when (negb (ok response))
       (let errorData := match json_body response with
                         | Ok v => v
                         | Throw _ => JObj []
                         end in
        detail ← await (prop errorData "detail");
        throw (ErrorObj (ToString (or_default detail (JStr "Failed to delete document")))));;
     fetchDocuments)
    (fun error => setError (Some (message_or error "Failed to delete document"))).

End Handlers.

(** *** What the JSX shows *)

(** [{error && <p>{error}</p>}]: the error line, absent for [null] and for
    the empty string. *)
Definition rendered_error (st : State) : option string :=
  match error st with
  | Some s => if truthy_string s then Some s else None
  | None => None
  end.

(** [{v}] as a child in JSX: the text React shows for it. Strings and
    numbers are shown; [null] and the booleans show nothing; an array shows
    its items in order; an object is refused, React throws. *)
Fixpoint child_text (v : json) : result string :=
  match v with
  | JNull | JBool _ => Ok ""
  | JNum printed => Ok printed
  | JStr s => Ok s
  | JArr items =>
      fold_right
        (fun item shown =>
           match child_text item, shown with
           | Ok a, Ok b => Ok (a +:+ b)
           | Throw e, _ | _, Throw e => Throw e
           end)
        (Ok "") items
  | JObj _ => Throw (ErrorObj "Objects are not valid as a React child")
  end.

(** One entry of the document list: [<li key={doc.filename}>] around
    [{doc.filename}]. It gives the key, unless reading the property throws
    (the entry is [null]) or the name cannot be shown (it is an object). *)
Definition document_key (doc : json) : result jsval :=
  match prop doc "filename" with
  | Ok (Some name) =>
      match child_text name with
      | Ok _ => Ok (Some name)
      | Throw e => Throw e
      end
  | Ok None => Ok undefined
  | Throw e => Throw e
  end.

Definition not_a_function : thrown := ErrorObj "documents.map is not a function".

(** The document list of the sidebar,
    [documents.length === 0 ? <p>...</p> : <ul>{documents.map(doc => ...)}</ul>]:
    the keys of the entries it shows, in order, or the exception its
    rendering ends with. Only an array has a [map] to call; the paragraph
    is shown for whatever has the length [0]. *)
Definition document_keys (docs : json) : result (list jsval) :=
  match docs with
  | JArr items => Array_map document_key items
  | JNull => Throw (ErrorObj (null_access_message "length"))
  | JStr s => if String.eqb s "" then Ok [] else Throw not_a_function
  | JObj props =>
      match assoc "length" props with
      | Some (JNum printed) => if String.eqb printed "0" then Ok [] else Throw not_a_function
      | _ => Throw not_a_function
      end
  | JBool _ | JNum _ => Throw not_a_function
  end.

(** [disabled={isLoading || !input.trim()}] on the submit button. *)
Definition submit_disabled (st : State) : bool :=
  isLoading st || negb (truthy_string (trim (input st))).

(** Submitting the form rendered from the current state. *)
Definition submit {Env} `{!Platform Env} : M Env unit :=
  fun w => handleSendMessage (ui w) w.

(** The menu button of the current render:
    [onClick={() => setIsSidebarOpen(!isSidebarOpen)}]. *)
Definition toggle_sidebar {Env} : M Env unit :=
  fun w => setIsSidebarOpen (negb (isSidebarOpen (ui w))) w.

End Page.

(** ** The API proxy route: [handler] *)

Module Proxy.

(** The parts of a [NextApiRequest] the handler reads. [body] is the body
    as Next.js has already parsed it. *)
Record NextApiRequest : Type := mkNextApiRequest {
  method : string;
  query_path : option (list string);
  headers : list (string * string);
  body : jsval;
}.

(** The request the handler passes to [fetch]. *)
Record Forwarded : Type := mkForwarded {
  fwd_url : string;
  fwd_method : string;
  fwd_headers : list (string * string);
  fwd_body : Body;
}.

(** What [res.status(s).json(v)] sends back. *)
Record Reply : Type := mkReply {
  reply_status : Z;
  reply_json : json;
}.

(** Assignment of an object property: an existing key keeps its place. *)
Fixpoint set_prop (k v : string) (props : list (string * string)) : list (string * string) :=
  match props with
  | [] => [(k, v)]
  | (k', v') :: rest =>
      if String.eqb k k' then (k, v) :: rest else (k', v') :: set_prop k v rest
  end.

(** [{ ...base, ...over }] *)
Definition spread (base over : list (string * string)) : list (string * string) :=
  fold_left (fun acc kv => set_prop (fst kv) (snd kv) acc) over base.

Section Handler.
(** [process.env.NEXT_PUBLIC_API_URL] and the backend behind [fetch]. *)
Context (NEXT_PUBLIC_API_URL : option string) (fetch : Forwarded → result Response).

Definition apiUrl : string :=
  match NEXT_PUBLIC_API_URL with
  | Some s => if truthy_string s then s else "http://localhost:8000"
  | None => "http://localhost:8000"
  end.

Definition targetUrl (req : NextApiRequest) : string :=
  apiUrl +:+ "/api/" +:+
    match query_path req with
    | Some path => String.concat "/" path
    | None => ""
    end.

Definition forwarded (req : NextApiRequest) : Forwarded :=
  {| fwd_url := targetUrl req;
     fwd_method := method req;
     fwd_headers := spread [("Content-Type", "application/json")] (headers req);
     fwd_body :=
       if negb (String.eqb (method req) "GET") && negb (String.eqb (method req) "HEAD")
       then JsonText (body req)
       else NoBody |}.

Definition internal_server_error : Reply :=
  {| reply_status := 500;
     reply_json := JObj [("error", JStr "Internal Server Error")] |}.

Definition handler (req : NextApiRequest) : Reply :=
  match fetch (forwarded req) with
  | Ok response =>
      match json_body response with
      | Ok data => {| reply_status := status response; reply_json := data |}
      | Throw _ => internal_server_error
      end
  | Throw _ => internal_server_error
  end.

End Handler.

End Proxy.

(** ** The backend behind [/api] *)

Module Backend.
Import Page.

(** Modelled from the spec: the backend function that serves [/api] is not
    among the sources. A document record holds the raw text content, the
    byte size, the MIME type and the creation and modification timestamps,
    and is keyed by its file name. *)
Record Document : Type := mkDocument {
  doc_content : string;
  doc_size : Z;
  doc_type : string;
  doc_created_at : Z;
  doc_last_modified : Z;
}.

(** Modelled from the spec: the live in-memory document map, the clock
    that stamps the records, and the answers the external generation API
    is going to give (each a response text with an optional source
    label). *)
Record t : Type := mkBackend {
  docs : gmap string Document;
  clock : Z;
  generations : list (string * option string);
}.

Definition json_response (st : Z) (v : json) : Response :=
  {| status := st; statusText := "";
     json_body := Ok v;
     text_after_json := Throw (ErrorObj "body stream already read") |}.

(** Modelled from the spec: an error is a generic HTTP error status with a
    message; the message travels in the [detail] property the page reads. *)
Definition error_response (st : Z) (msg : string) : Response :=
  json_response st (JObj [("detail", JStr msg)]).

(** Sizes and timestamps are integers that JavaScript holds exactly and
    prints in full. *)
Definition info_json (d : DocumentInfo) : json :=
  JObj [("filename", JStr (filename d)); ("size", JNum (pretty (size d)));
        ("type", JStr (type d)); ("created_at", JNum (pretty (created_at d)));
        ("last_modified", JNum (pretty (last_modified d)))].

Definition info_of (entry : string * Document) : DocumentInfo :=
  {| filename := fst entry;
     size := doc_size (snd entry);
     type := doc_type (snd entry);
     created_at := doc_created_at (snd entry);
     last_modified := doc_last_modified (snd entry) |}.

(** Modelled from the spec: [GET /api/documents] reads the map and lists
    the metadata records. *)
Definition listing (m : gmap string Document) : json :=
  JArr (map (fun entry => info_json (info_of entry)) (map_to_list m)).

Definition list_documents (b : t) : Response * t :=
  (json_response 200 (JObj [("documents", listing (docs b))]), b).

Fixpoint form_file (form : FormData) : option File :=
  match form with
  | [] => None
  | (k, FormFile f) :: rest => if String.eqb k "file" then Some f else form_file rest
  | _ :: rest => form_file rest
  end.

Fixpoint form_filename (form : FormData) : option string :=
  match form with
  | [] => None
  | (k, FormString s) :: rest => if String.eqb k "filename" then Some s else form_filename rest
  | _ :: rest => form_filename rest
  end.

Definition store (name : string) (f : File) (b : t) : t :=
  {| docs := <[name := {| doc_content := file_content f;
                          doc_size := Z.of_nat (String.length (file_content f));
                          doc_type := file_type f;
                          doc_created_at := clock b;
                          doc_last_modified := clock b |}]> (docs b);
     clock := (clock b + 1)%Z;
     generations := generations b |}.

(** Modelled from the spec: [POST /api/upload_document] takes a multipart
    file and file name, inserts the record into the map (overwriting a
    record of the same name) and confirms the ingestion. *)
Definition upload_document (payload : Body) (b : t) : Response * t :=
  match payload with
  | Multipart form =>
      match form_file form, form_filename form with
      | Some f, Some name =>
          (json_response 200 (JObj [("message", JStr "Document uploaded");
                                    ("filename", JStr name)]),
           store name f b)
      | _, _ => (error_response 422 "file and filename are required", b)
      end
  | _ => (error_response 422 "multipart form expected", b)
  end.

(** Modelled from the spec: [DELETE /api/documents/{filename}] erases one
    record from the map. *)
Definition delete_document (name : string) (b : t) : Response * t :=
  match docs b !! name with
  | Some _ =>
      (json_response 200 (JObj [("message", JStr "Document deleted")]),
       {| docs := delete name (docs b); clock := clock b;
          generations := generations b |})
  | None => (error_response 404 "Document not found", b)
  end.

(** Modelled from the spec: [POST /api/chat] answers [{response, source?}]
    with what the generation API returns. *)
Definition chat (b : t) : Response * t :=
  match generations b with
  | (text, label) :: rest =>
      (json_response 200
         (JObj (("response", JStr text)
                  :: match label with
                     | Some s => [("source", JStr s)]
                     | None => []
                     end)),
       {| docs := docs b; clock := clock b; generations := rest |})
  | [] => (error_response 500 "generation failed", b)
  end.

Definition serve (req : Request) (b : t) : Response * t :=
  match url_route (req_url req) with
  | RDocuments =>
      if String.eqb (req_method req) "GET" then list_documents b
      else (error_response 405 "Method Not Allowed", b)
  | RUploadDocument =>
      if String.eqb (req_method req) "POST" then upload_document (req_body req) b
      else (error_response 405 "Method Not Allowed", b)
  | RDocument name =>
      if String.eqb (req_method req) "DELETE" then delete_document name b
      else (error_response 405 "Method Not Allowed", b)
  | RChat =>
      if String.eqb (req_method req) "POST" then chat b
      else (error_response 405 "Method Not Allowed", b)
  end.

End Backend.

(** ** The page talking to the backend *)

Module Deployed.
Import Page.

(** The page's surroundings once deployed: the backend, the coming network
    outages (one flag per request, [true] for a request that fails before
    it reaches the backend) and the user's coming answers to [confirm]. *)
Record t : Type := mkDeployed {
  backend : Backend.t;
  outages : list bool;
  answers : list bool;
}.

Definition deployed_fetch (req : Request) (d : t) : result Response * t :=
  match outages d with
  | true :: rest =>
      (Throw (ErrorObj "Failed to fetch"),
       {| backend := backend d; outages := rest; answers := answers d |})
  | later =>
      let '(response, b) := Backend.serve req (backend d) in
      (Ok response, {| backend := b; outages := tail later; answers := answers d |})
  end.

Definition deployed_confirm (text : string) (d : t) : bool * t :=
  match answers d with
  | a :: rest => (a, {| backend := backend d; outages := outages d; answers := rest |})
  | [] => (false, d)
  end.

#[export] Instance platform : Platform t :=
  {| NODE_ENV := "production"; fetch := deployed_fetch; confirm := deployed_confirm |}.

(** What happens to the page: the callback of the effect of
    [page.tsx:58-60] runs ([Mount]: it calls [fetchDocuments]), the user
    types, submits, opens or closes the sidebar, picks, drags or drops
    files, asks for a deletion, or the timer set by an upload expires.
    These are the callbacks the component hands to React, each run to its
    end; the render that registers them is not part of [run]. *)
Inductive Action : Type :=
| Mount
| TypeInput (text : string)
| Submit
| ToggleSidebar
| CloseSidebar
| PickFile (files : list File)
| DragOver (event_type : string)
| Drop (files : list File)
| ClickDelete (name : string)
| TimerExpires (callback : Timer).

Definition run (a : Action) : M t unit :=
  match a with
  | Mount => fetchDocuments
  | TypeInput text => setInput text
  | Submit => submit
  | ToggleSidebar => toggle_sidebar
  | CloseSidebar => setIsSidebarOpen false
  | PickFile files => handleFileChange files
  | DragOver event_type => handleDrag event_type
  | Drop files => handleDrop files
  | ClickDelete name => handleDeleteDocument name
  | TimerExpires callback => timer_fired callback
  end.

Definition step (w : World t) (a : Action) : World t := snd (run a w).

Definition run_all (w : World t) (actions : list Action) : World t :=
  fold_left step actions w.

Definition start (d : t) : World t :=
  {| ui := initial_state; env := d; trace := [] |}.

End Deployed.

(** ** A server that answers from a script *)

Module Scripted.
Import Page.

(** The responses the next requests will get, and the answers the user
    will give to [confirm]. *)
Record t : Type := mkScripted {
  responses : list (result Response);
  confirms : list bool;
}.

Definition scripted_fetch (req : Request) (s : t) : result Response * t :=
  match responses s with
  | r :: rest => (r, {| responses := rest; confirms := confirms s |})
  | [] => (Throw (ErrorObj "Failed to fetch"), s)
  end.

Definition scripted_confirm (text : string) (s : t) : bool * t :=
  match confirms s with
  | a :: rest => (a, {| responses := responses s; confirms := rest |})
  | [] => (false, s)
  end.

#[export] Instance platform : Platform t :=
  {| NODE_ENV := "development"; fetch := scripted_fetch; confirm := scripted_confirm |}.

Definition start (s : t) : World t :=
  {| ui := initial_state; env := s; trace := [] |}.

(** The page after the user has typed [text]. *)
Definition typed (text : string) (s : t) : World t :=
  snd (setInput text (start s)).

End Scripted.

(** ** Vocabulary of the properties *)

Module Outcome.
Import Page.

(** The input is empty or consists of white space only. *)
Fixpoint whitespace_only (s : string) : bool :=
  match s with
  | EmptyString => true
  | String c rest => is_whitespace c && whitespace_only rest
  end.

(** A request has failed: the network rejected it, the status is not in
    the 200s, or the body could not be parsed. *)
Definition request_failed (outcome : result Response) : bool :=
  match outcome with
  | Throw _ => true
  | Ok r =>
      negb (ok r) || match json_body r with
                     | Throw _ => true
                     | Ok _ => false
                     end
  end.

(** The error a response with an error status is turned into: its message
    is the server's [detail] when there is one, else the JSON text of the
    error body; without a JSON body, the response text, else [fallback];
    and when the text cannot be read either (which is the case wherever
    [text()] rejects once [json()] has been tried), that failure itself. *)
Definition http_error (fallback : string) (r : Response) : thrown :=
  match json_body r with
  | Ok (JObj props) =>
      match assoc "detail" props with
      | Some d => ErrorObj (if truthy d then ToString d else JSON_stringify (JObj props))
      | None => ErrorObj (JSON_stringify (JObj props))
      end
  | Ok JNull | Throw _ =>
      match text_after_json r with
      | Ok text => ErrorObj (if String.eqb text "" then fallback else text)
      | Throw e => e
      end
  | Ok errorData => ErrorObj (JSON_stringify errorData)
  end.

(** The proxy's exchange with the backend has failed: the request was
    rejected or the body of the response is not JSON. *)
Definition request_failed_unparsed (outcome : result Response) : bool :=
  match outcome with
  | Throw _ => true
  | Ok r => match json_body r with
            | Throw _ => true
            | Ok _ => false
            end
  end.

(** Why a request has failed, if it has: the network's rejection, the
    error made of a response with an error status ([fallback] gives the
    message to fall back on), or the rejection of the body. *)
Definition failure (fallback : Response → string) (outcome : result Response) : option thrown :=
  match outcome with
  | Throw e => Some e
  | Ok r =>
      if ok r then
        match json_body r with
        | Throw e => Some e
        | Ok _ => None
        end
      else Some (http_error (fallback r) r)
  end.

Definition listing_fallback (r : Response) : string :=
  "Failed to fetch documents: " +:+ pretty (status r) +:+ " " +:+ statusText r.

Definition upload_fallback (r : Response) : string :=
  "Server error: " +:+ pretty (status r) +:+ " " +:+ statusText r.

(** The first [n] coming requests reach the backend. *)
Definition calm (n : nat) (outages : list bool) : bool :=
  forallb negb (take n outages).

Definition user_message (text : string) : Message :=
  {| role := user; content := Some (JStr text); source := undefined |}.

(** How a chat exchange ends: with the assistant message that is appended
    (the answer read from the body of an [ok] response, or the fixed error
    sentence after a failure), or, when the properties of the body cannot
    be read, with the exception of the updater. *)
Definition chat_end (outcome : result Response) : result Message :=
  match outcome with
  | Ok r =>
      if ok r then
        match json_body r with
        | Ok data =>
            match prop data "response", prop data "source" with
            | Ok a, Ok b => Ok {| role := assistant; content := a; source := b |}
            | Throw e, _ | _, Throw e => Throw e
            end
        | Throw _ => Ok chat_error_message
        end
      else Ok chat_error_message
  | Throw _ => Ok chat_error_message
  end.

(** The list is shown, and the names it is keyed by are pairwise
    different. *)
Definition unique_names (docs : json) : Prop :=
  ∃ keys, document_keys docs = Ok keys ∧ NoDup keys.

(** The names under which the backend lists a map. *)
Definition listed_names (m : gmap string Backend.Document) : list jsval :=
  map (fun entry => Some (JStr (fst entry))) (map_to_list m).

(** The text the backend holds under a file name. *)
Definition doc_content_of (b : Backend.t) (name : string) : option string :=
  Backend.doc_content <$> Backend.docs b !! name.

Section Worlds.
Context {Env : Type} `{!Platform Env}.

(** The page once the form has been submitted and the exchange is over. *)
Definition chatted (ending : result Message) (e : Env) (w : World Env) : World Env :=
  let text := input (ui w) in
  let history := messages (ui w) in
  let asked := (history ++ [user_message text])%list in
  let sent := with_isLoading true (with_input "" (with_messages asked (ui w))) in
  {| ui := with_isLoading false
             match ending with
             | Ok reply => with_messages (asked ++ [reply])%list sent
             | Throw _ => sent
             end;
     env := e;
     trace := (trace w ++ [SetMessages asked; SetInput ""; SetIsLoading true;
                           Fetch (chat_request text history);
                           match ending with
                           | Ok reply => SetMessages (asked ++ [reply])%list
                           | Throw err => RenderFails err
                           end;
                           SetIsLoading false])%list |}.

(** The page once the upload request for [file] has been sent. *)
Definition uploading_world (file : File) (e : Env) (w : World Env) : World Env :=
  {| ui := with_error None (with_uploadStatus UploadStatus.uploading (ui w));
     env := e;
     trace := (trace w ++ [SetUploadStatus UploadStatus.uploading; SetError None;
                           Fetch (upload_request file)])%list |}.

Definition reported_success (w : World Env) : World Env :=
  {| ui := with_uploadStatus UploadStatus.success (ui w);
     env := env w;
     trace := (trace w ++ [SetUploadStatus UploadStatus.success;
                           SetTimeout 3000 ResetUploadStatus])%list |}.

Definition reported_failure (err : thrown) (w : World Env) : World Env :=
  let msg := message_or err upload_fallback_message in
  {| ui := with_error (Some msg) (with_uploadStatus UploadStatus.error (ui w));
     env := env w;
     trace := (trace w ++ [SetUploadStatus UploadStatus.error; SetError (Some msg)])%list |}.

(** A handler keeps a property of the document list that is held in the
    state. *)
Definition keeps (P : json → Prop) {A : Type} (m : M Env A) : Prop :=
  ∀ w, P (documents (ui w)) → P (documents (ui (snd (m w)))).

End Worlds.

End Outcome.
Export Outcome.

(** ** Sample runs *)

Module Sample.
Import Page.

Definition notes : File :=
  {| file_name := "notes.txt"; file_size := 5; file_type := "text/plain";
     file_content := "hello" |}.

Definition rates : File :=
  {| file_name := "rates.txt"; file_size := 3; file_type := "text/plain";
     file_content := "4.5" |}.

Definition terms : File :=
  {| file_name := "terms.txt"; file_size := 7; file_type := "text/plain";
     file_content := "30 days" |}.

(** A backend that holds [rates.txt] and [terms.txt] and whose generation
    API is about to answer once. *)
Definition backend : Backend.t :=
  Backend.store "terms.txt" terms
    (Backend.store "rates.txt" rates
       {| Backend.docs := ∅; Backend.clock := 0;
          Backend.generations := [("The rate is 4.5.", Some "rates.txt")] |}).

(** The page just mounted in front of that backend, with a user who will
    confirm. *)
Definition deployed : World Deployed.t :=
  Deployed.start {| Deployed.backend := backend; Deployed.outages := [];
                    Deployed.answers := [true] |}.

(** The same page after it has listed the documents, as the network goes
    down. *)
Definition offline : World Deployed.t :=
  Deployed.step
    (Deployed.start {| Deployed.backend := backend; Deployed.outages := [false; true; true];
                       Deployed.answers := [true] |})
    Deployed.Mount.

Definition answer : Response :=
  Backend.json_response 200
    (JObj [("response", JStr "The rate is 4.5."); ("source", JStr "rates.txt")]).

(** An [ok] response whose body is a page of HTML, not JSON. *)
Definition html_answer : Response :=
  {| status := 200; statusText := "OK";
     json_body := Throw (ErrorObj "Unexpected token < in JSON at position 0");
     text_after_json := Throw (ErrorObj "body stream already read") |}.

(** A rejection whose [detail] is an empty list. *)
Definition empty_detail : Response :=
  {| status := 400; statusText := "Bad Request";
     json_body := Ok (JObj [("detail", JArr [])]);
     text_after_json := Throw (ErrorObj "body stream already read") |}.

(** A gateway error page: no JSON body, and no text left to read once
    [json()] has been tried. *)
Definition bad_gateway : Response :=
  {| status := 502; statusText := "Bad Gateway";
     json_body := Throw (ErrorObj "Unexpected token < in JSON at position 0");
     text_after_json := Throw (ErrorObj "body stream already read") |}.

(** The page with [text] typed in, in front of a server that will give
    the [responses]. *)
Definition asking (text : string) (responses : list (result Response)) : World Scripted.t :=
  Scripted.typed text {| Scripted.responses := responses; Scripted.confirms := [] |}.

(** A multipart upload arriving at the proxy route, its body left as the
    raw text [raw] by the body parser. *)
Definition upload_through_proxy (raw : string) : Proxy.NextApiRequest :=
  {| Proxy.method := "POST";
     Proxy.query_path := Some ["upload_document"];
     Proxy.headers := [("content-type", "multipart/form-data; boundary=x");
                       ("accept", "application/json")];
     Proxy.body := Some (JStr raw) |}.

Definition listing_through_proxy : Proxy.NextApiRequest :=
  {| Proxy.method := "GET";
     Proxy.query_path := Some ["documents"];
     Proxy.headers := [("accept", "application/json")];
     Proxy.body := undefined |}.

Definition unreachable (req : Proxy.Forwarded) : result Response :=
  Throw (ErrorObj "fetch failed").

Definition reachable (r : Response) (req : Proxy.Forwarded) : result Response := Ok r.

End Sample.

(** ** Vocabulary of the further properties *)

Module Frame.
Import Page.

(** The requests among the effects of a trace, in order. *)
Fixpoint requests (t : list Effect) : list Request :=
  match t with
  | [] => []
  | Fetch req :: rest => req :: requests rest
  | _ :: rest => requests rest
  end.

(** The part of the state that belongs to the chat. *)
Definition chat_part (st : State) : list Message * string * bool :=
  (messages st, input st, isLoading st).

(** The part of the state that does not belong to the chat. *)
Definition outside_chat (st : State)
    : json * UploadStatus.t * bool * bool * option string * option string :=
  (documents st, uploadStatus st, isSidebarOpen st, dragActive st, error st,
   fileInput st).

(** The part of the state that listing the documents does not set. *)
Definition outside_listing (st : State)
    : list Message * string * bool * UploadStatus.t * bool * bool * option string :=
  (messages st, input st, isLoading st, uploadStatus st, isSidebarOpen st,
   dragActive st, fileInput st).

Section Frames.
Context {Env : Type}.

(** A handler leaves a part of the state as it was. *)
Definition preserves {A B : Type} (part : State → A) (m : M Env B) : Prop :=
  ∀ w, part (ui (snd (m w))) = part (ui w).

(** A handler never throws. *)
Definition returns {B : Type} (m : M Env B) : Prop :=
  ∀ w, ∃ b, fst (m w) = Ok b.

End Frames.

(** [headers[k]] of an object of headers. *)
Fixpoint header (k : string) (hs : list (string * string)) : option string :=
  match hs with
  | [] => None
  | (k', v) :: rest => if String.eqb k k' then Some v else header k rest
  end.

(** The file input of the page, once a handler has cleared it. *)
Definition cleared (st : State) : option string :=
  match fileInput st with
  | Some _ => Some ""
  | None => None
  end.

(** A file as the drop zone sees it: a name and a MIME type. *)
Definition dropped (name type : string) : File :=
  {| file_name := name; file_size := 0; file_type := type; file_content := "" |}.

End Frame.
Export Frame.

(** ** Further sample runs *)

Module Cases.
Import Page.

(** An [ok] listing without a [documents] property. *)
Definition bare_listing : Response := Backend.json_response 200 (JObj []).

(** An [ok] listing whose body is the JSON text [null]. *)
Definition null_listing : Response := Backend.json_response 200 JNull.

Definition listing_of_rates : Response :=
  Backend.json_response 200
    (JObj [("documents", JArr [JObj [("filename", JStr "rates.txt")]])]).

Definition upload_confirmed : Response :=
  Backend.json_response 200 (JObj [("message", JStr "Document uploaded")]).

Definition not_found : Response := Backend.error_response 404 "Document not found".

(** The reply of the proxy route when the backend is down, as the page
    receives it. *)
Definition proxy_down : Response :=
  {| status := 500; statusText := "Internal Server Error";
     json_body := Ok (JObj [("error", JStr "Internal Server Error")]);
     text_after_json := Throw (ErrorObj "body stream already read") |}.

(** The page just mounted, in front of a server that will give the
    [responses], with a user who will give the [confirms]. *)
Definition serving (responses : list (result Response)) (confirms : list bool)
    : World Scripted.t :=
  Scripted.start {| Scripted.responses := responses; Scripted.confirms := confirms |}.

(** The page in the middle of a conversation, with an error on display. *)
Definition busy : World Scripted.t :=
  {| ui := {| messages := [user_message "Hello"; chat_error_message];
              input := "What is the rate?"; isLoading := false;
              documents := JArr [JObj [("filename", JStr "rates.txt")]];
              uploadStatus := UploadStatus.error; isSidebarOpen := true;
              dragActive := true; error := Some "Server error: 500 ";
              fileInput := Some "notes.txt" |};
     env := {| Scripted.responses := [Ok Sample.answer; Ok Sample.answer];
               Scripted.confirms := [] |};
     trace := [] |}.

(** A request arriving at the proxy route with the headers Node gives. *)
Definition through_proxy : Proxy.NextApiRequest :=
  {| Proxy.method := "POST";
     Proxy.query_path := Some ["chat"];
     Proxy.headers := [("host", "localhost:3000");
                       ("content-type", "application/json");
                       ("accept", "*/*")];
     Proxy.body := Some (JObj [("message", JStr "Hello")]) |}.

End Cases.

(** * Properties *)

Import Page.

(** ** Strings *)

Lemma trimStart_whitespace_only (s : string) :
  whitespace_only s = true → trimStart s = "".
Proof.
  induction s as [|c rest IH]; cbn; [done|].
  destruct (is_whitespace c); cbn; [exact IH|done].
Qed.

Lemma trimEnd_nonempty (c : ascii) (rest : string) :
  is_whitespace c = false → trimEnd (String c rest) ≠ "".
Proof.
  intros Hc. cbn. destruct (trimEnd rest); [by rewrite Hc|done].
Qed.

Lemma trim_empty_iff (s : string) :
  trim s = "" ↔ whitespace_only s = true.
Proof.
  unfold trim. split.
  - induction s as [|c rest IH]; cbn; [done|].
    destruct (is_whitespace c) eqn:Hc; cbn; [exact IH|].
    intros H. exfalso. revert H. fold (trimEnd (String c rest)).
    by apply trimEnd_nonempty.
  - intros H. by rewrite trimStart_whitespace_only.
Qed.

Lemma truthy_string_false (s : string) : truthy_string s = false ↔ s = "".
Proof.
  unfold truthy_string. destruct (String.eqb_spec s ""); cbn; split; congruence.
Qed.

Lemma truthy_string_true (s : string) : truthy_string s = true ↔ s ≠ "".
Proof.
  unfold truthy_string. destruct (String.eqb_spec s ""); cbn; split; congruence.
Qed.

(** ** The handlers of the page, on any platform *)

#[local] Arguments JSON_stringify : simpl never.
#[local] Arguments ToString : simpl never.
#[local] Arguments trim : simpl never.

Ltac run_page :=
  unfold submit, handleSendMessage, uploadFile, fetchDocuments,
    handleDeleteDocument, handleFileChange, handleDrop, handleDrag,
    timer_fired, throw_http_error, finally, try_catch, bind, do_fetch,
    do_confirm, when, await, setMessages, setInput, setIsLoading,
    setDocuments, setUploadStatus, setDragActive, setError, setTimeout,
    clearFileInput, update, throw, ret;
  cbn.

Section PageFacts.
Context {Env : Type} `{!Platform Env}.

Lemma throw_http_error_spec (fallback : string) (r : Response) (w : World Env) :
  throw_http_error fallback r w = (Throw (http_error fallback r), w).
Proof.
  run_page. unfold http_error, or_default, truthy_string.
  destruct (json_body r) as [[| | | |items|props]|e]; cbn;
    try destruct (text_after_json r) as [text|e']; cbn;
    try destruct (String.eqb text ""); cbn;
    try destruct (assoc "detail" props) as [d|]; cbn;
    try destruct (truthy d);
    reflexivity.
Qed.

Lemma request_failed_failure (fallback : Response → string) (outcome : result Response) :
  request_failed outcome = true ↔ is_Some (failure fallback outcome).
Proof.
  unfold request_failed, failure.
  destruct outcome as [r|e]; [|split; eauto].
  destruct (ok r); cbn; [|split; eauto].
  destruct (json_body r); split; intros H; eauto; try done.
Qed.

Lemma prop_not_null (data : json) (k k' : string) (v : jsval) :
  prop data k = Ok v → ∃ v', prop data k' = Ok v'.
Proof. destruct data; cbn; intros H; try done; eauto. Qed.

Lemma fetchDocuments_failure_run
    (w : World Env) (outcome : result Response) (e : Env) (err : thrown) :
  fetch documents_request (env w) = (outcome, e) →
  failure listing_fallback outcome = Some err →
  let msg := message_or err "Failed to load documents" in
  fetchDocuments w =
    (Ok (),
     {| ui := with_documents (JArr []) (with_error (Some msg) (ui w));
        env := e;
        trace := (trace w ++ [Fetch documents_request; SetError (Some msg);
                              SetDocuments (JArr [])])%list |}).
Proof.
  intros Hfetch Herr msg. subst msg.
  unfold fetchDocuments, try_catch, bind at 1, do_fetch. rewrite Hfetch.
  unfold failure in Herr. destruct outcome as [r|e0].
  - unfold when. destruct (ok r); cbn.
    + unfold bind, ret, await; cbn. destruct (json_body r); [done|].
      injection Herr as ->. run_page. by rewrite <- !app_assoc.
    + unfold bind. rewrite throw_http_error_spec. injection Herr as <-.
      run_page. by rewrite <- !app_assoc.
  - injection Herr as ->. run_page. by rewrite <- !app_assoc.
Qed.

Lemma fetchDocuments_success_run
    (w : World Env) (r : Response) (e : Env) (data : json) (docs : jsval) :
  fetch documents_request (env w) = (Ok r, e) →
  ok r = true →
  json_body r = Ok data →
  prop data "documents" = Ok docs →
  let listed := or_default docs (JArr []) in
  fetchDocuments w =
    (Ok (),
     {| ui := with_documents listed (ui w);
        env := e;
        trace := (trace w ++ [Fetch documents_request; SetDocuments listed])%list |}).
Proof.
  intros Hfetch Hok Hjson Hprop listed. subst listed.
  run_page. rewrite Hfetch, Hok. cbn. rewrite Hjson, Hprop. cbn.
  by rewrite <- !app_assoc.
Qed.

Lemma fetchDocuments_returns (w : World Env) : fst (fetchDocuments w) = Ok ().
Proof.
  run_page. destruct (fetch documents_request (env w)) as [[r|e0] e]; cbn; [|done].
  destruct (ok r); cbn.
  - destruct (json_body r) as [data|]; cbn; [|done].
    by destruct (prop data "documents").
  - destruct (json_body r) as [data|]; cbn.
    + destruct (prop data "detail"); cbn; [done|].
      by destruct (text_after_json r).
    + by destruct (text_after_json r).
Qed.

Lemma then_clearFileInput {A : Type} (x : result A) (w : World Env) :
  (let (r, w') := clearFileInput w in
   match r with
   | Ok _ => (x, w')
   | Throw e => (Throw e, w')
   end) = (x, snd (clearFileInput w)).
Proof. unfold clearFileInput. by destruct (fileInput (ui w)). Qed.

Lemma uploadFile_failure_run
    (w : World Env) (file : File) (outcome : result Response) (e : Env) (err : thrown) :
  fetch (upload_request file) (env w) = (outcome, e) →
  failure upload_fallback outcome = Some err →
  uploadFile (Some file) w =
    (Throw err, snd (clearFileInput (reported_failure err (uploading_world file e w)))).
Proof.
  intros Hfetch Herr.
  unfold uploadFile, finally, try_catch, bind, do_fetch, setUploadStatus, setError, update.
  cbn. rewrite Hfetch.
  unfold failure in Herr. destruct outcome as [r|e0].
  - unfold when. destruct (ok r); cbn.
    + unfold await. destruct (json_body r); [done|]. injection Herr as ->.
      unfold throw. cbn. unfold reported_failure, uploading_world. cbn.
      rewrite <- !app_assoc. cbn. apply then_clearFileInput.
    + rewrite throw_http_error_spec. injection Herr as <-.
      unfold throw. cbn. unfold reported_failure, uploading_world. cbn.
      rewrite <- !app_assoc. cbn. apply then_clearFileInput.
  - injection Herr as ->.
    unfold throw. cbn. unfold reported_failure, uploading_world. cbn.
    rewrite <- !app_assoc. cbn. apply then_clearFileInput.
Qed.

Lemma uploadFile_success_run
    (w : World Env) (file : File) (r : Response) (e : Env) (result : json) :
  fetch (upload_request file) (env w) = (Ok r, e) →
  ok r = true →
  json_body r = Ok result →
  uploadFile (Some file) w =
    (Ok (Some result),
     snd (clearFileInput
            (reported_success (snd (fetchDocuments (uploading_world file e w)))))).
Proof.
  intros Hfetch Hok Hjson.
  unfold uploadFile, finally, try_catch, bind, do_fetch, setUploadStatus, setError,
    setTimeout, update, when, await, ret.
  cbn. rewrite Hfetch, Hok. cbn. rewrite Hjson.
  rewrite <- !app_assoc. cbn. fold (uploading_world file e w).
  pose proof (fetchDocuments_returns (uploading_world file e w)) as Hret.
  destruct (fetchDocuments (uploading_world file e w)) as [res w2].
  cbn in Hret. subst res. cbn.
  rewrite <- !app_assoc. cbn. fold (reported_success w2).
  apply then_clearFileInput.
Qed.

Lemma submit_run (w : World Env) (outcome : result Response) (e : Env) :
  trim (input (ui w)) ≠ "" →
  fetch (chat_request (input (ui w)) (messages (ui w))) (env w) = (outcome, e) →
  submit w = (Ok (), chatted (chat_end outcome) e w).
Proof.
  intros Hinput Hfetch. apply truthy_string_true in Hinput.
  unfold submit, handleSendMessage. rewrite Hinput. cbn.
  unfold chatted, chat_end, setMessagesWith. run_page. rewrite Hfetch.
  destruct outcome as [r|e0]; cbn; [|by rewrite <- !app_assoc].
  destruct (ok r); cbn; [|by rewrite <- !app_assoc].
  destruct (json_body r) as [data|]; cbn; [|by rewrite <- !app_assoc].
  destruct (prop data "response"); cbn; [|by rewrite <- !app_assoc].
  destruct (prop data "source"); cbn; by rewrite <- !app_assoc.
Qed.

Lemma chat_end_failed (outcome : result Response) :
  request_failed outcome = true → chat_end outcome = Ok chat_error_message.
Proof.
  unfold request_failed, chat_end. destruct outcome as [r|]; [|done].
  destruct (ok r); cbn; [|done]. by destruct (json_body r).
Qed.

(** C1, as amended. A submission whose input is not empty after trimming
    posts, once, to [/chat] under the base URL of the build
    ([http://127.0.0.1:8000/api] in development, [/api] otherwise) a JSON
    body with exactly the properties [message] (the submitted text) and
    [history] (the messages of the state before the user message is
    appended, each written with its role, then its content and its source
    when it has them). After an [ok] response whose body is JSON and not
    [null] it appends one assistant message, with the body's [response] as
    content and the body's [source] as source; after an [ok] response
    whose body is not JSON it appends the assistant message with the fixed
    error sentence instead. *)
Theorem chat_submission_posts_message_and_history (w : World Env) :
  trim (input (ui w)) ≠ "" →
  let text := input (ui w) in
  let history := messages (ui w) in
  let request := chat_request text history in
  let asked := (history ++ [user_message text])%list in
  let w' := snd (submit w) in
  (request =
     {| req_method := "POST";
        req_url := {| url_base := if String.eqb NODE_ENV "development"
                                  then "http://127.0.0.1:8000/api" else "/api";
                      url_route := RChat |};
        req_headers := [("Content-Type", "application/json")];
        req_body := JsonText (Some (JObj [("message", JStr text);
                                           ("history", JArr (map message_json history))])) |} ∧
   ∀ m, message_json m =
          JObj (("role", JStr match role m with
                              | user => "user"
                              | assistant => "assistant"
                              end)
                  :: match content m with
                     | Some c => [("content", c)]
                     | None => []
                     end
                  ++ match source m with
                     | Some s => [("source", s)]
                     | None => []
                     end)%list) ∧
  (∃ ending,
     trace w' = (trace w ++ [SetMessages asked; SetInput ""; SetIsLoading true;
                             Fetch request; ending; SetIsLoading false])%list ∧
     ∀ req, ending ≠ Fetch req) ∧
  (∀ r e data,
     fetch request (env w) = (Ok r, e) →
     ok r = true →
     json_body r = Ok data →
     data ≠ JNull →
     ∃ a b,
       prop data "response" = Ok a ∧
       prop data "source" = Ok b ∧
       let reply := {| role := assistant; content := a; source := b |} in
       messages (ui w') = (asked ++ [reply])%list ∧
       trace w' = (trace w ++ [SetMessages asked; SetInput ""; SetIsLoading true;
                               Fetch request; SetMessages (asked ++ [reply]);
                               SetIsLoading false])%list) ∧
  (∀ r e err,
     fetch request (env w) = (Ok r, e) →
     ok r = true →
     json_body r = Throw err →
     let reply := {| role := assistant;
                     content := Some (JStr "Sorry, I encountered an error. Please try again.");
                     source := undefined |} in
     messages (ui w') = (asked ++ [reply])%list ∧
     trace w' = (trace w ++ [SetMessages asked; SetInput ""; SetIsLoading true;
                             Fetch request; SetMessages (asked ++ [reply]);
                             SetIsLoading false])%list).
Proof.
  intros Hinput text history request asked w'.
  split; [split; [done|by intros [[] [c|] [s|]]]|].
  destruct (fetch request (env w)) as [outcome e] eqn:Hfetch.
  assert (Hrun : w' = chatted (chat_end outcome) e w).
  { subst w'. by rewrite (submit_run w outcome e Hinput Hfetch). }
  split; [|split].
  - rewrite Hrun. cbn. eexists. split; [reflexivity|].
    by destruct (chat_end outcome).
  - intros r e' data [= -> ->] Hok Hjson Hdata.
    assert (∃ a b, prop data "response" = Ok a ∧ prop data "source" = Ok b)
      as (a & b & Ha & Hb) by (destruct data; cbn; try done; eauto).
    exists a, b. split; [exact Ha|]. split; [exact Hb|].
    rewrite Hrun. unfold chat_end. rewrite Hok, Hjson, Ha, Hb. by cbn.
  - intros r e' err [= -> ->] Hok Hjson reply.
    rewrite Hrun. unfold chat_end. rewrite Hok, Hjson. by cbn.
Qed.

Lemma blank_input_disables_submit (st : State) :
  whitespace_only (input st) = true → submit_disabled st = true.
Proof.
  intros H. apply trim_empty_iff in H. unfold submit_disabled. rewrite H.
  by destruct (isLoading st).
Qed.

(** C9. Submitting an input that is empty or white space only changes
    nothing: [handleSendMessage] returns before any state is set and any
    request is sent, so the world, with its messages, input, loading flag
    and trace of requests, is the same; the submit button of that render
    is disabled besides. *)
Theorem blank_submission_is_noop (snap : State) (w : World Env) :
  whitespace_only (input snap) = true →
  handleSendMessage snap w = (Ok (), w) ∧ submit_disabled snap = true.
Proof.
  intros H. split; [|by apply blank_input_disables_submit].
  apply trim_empty_iff in H. unfold handleSendMessage. by rewrite H.
Qed.

(** C10. When the request for the document list fails (the network
    rejects it, the status is an error, or the body does not parse),
    [fetchDocuments] replaces the displayed list by the empty list and
    sets the error state to the message of the failure. *)
Theorem failed_listing_clears_documents
    (w : World Env) (outcome : result Response) (e : Env) :
  fetch documents_request (env w) = (outcome, e) →
  request_failed outcome = true →
  ∃ err,
    failure listing_fallback outcome = Some err ∧
    let w' := snd (fetchDocuments w) in
    let msg := message_or err "Failed to load documents" in
    documents (ui w') = JArr [] ∧
    error (ui w') = Some msg ∧
    trace w' = (trace w ++ [Fetch documents_request; SetError (Some msg);
                            SetDocuments (JArr [])])%list.
Proof.
  intros Hfetch Hfailed.
  destruct (proj1 (request_failed_failure listing_fallback outcome) Hfailed)
    as [err Herr].
  exists err. split; [exact Herr|].
  intros w' msg. subst w' msg.
  by rewrite (fetchDocuments_failure_run w outcome e err Hfetch Herr).
Qed.

(** A failed chat request appends an assistant message with the fixed
    error sentence. A failed upload rethrows, sets the upload status to
    [error] and the error state to the message of the failure (or the
    generic sentence when the failure is not an [Error]); the error line
    shows that message unless it is the empty string. *)
Lemma failures_reach_the_state :
  (∀ (w : World Env) outcome e,
     trim (input (ui w)) ≠ "" →
     fetch (chat_request (input (ui w)) (messages (ui w))) (env w) = (outcome, e) →
     request_failed outcome = true →
     messages (ui (snd (submit w))) =
       (messages (ui w) ++ [user_message (input (ui w)); chat_error_message])%list) ∧
  (∀ (w : World Env) file outcome e,
     fetch (upload_request file) (env w) = (outcome, e) →
     request_failed outcome = true →
     ∃ err,
       failure upload_fallback outcome = Some err ∧
       let w' := snd (uploadFile (Some file) w) in
       let msg := message_or err upload_fallback_message in
       fst (uploadFile (Some file) w) = Throw err ∧
       uploadStatus (ui w') = UploadStatus.error ∧
       error (ui w') = Some msg ∧
       rendered_error (ui w') = if String.eqb msg "" then None else Some msg).
Proof.
  split.
  - intros w outcome e Hinput Hfetch Hfailed.
    rewrite (submit_run w outcome e Hinput Hfetch).
    rewrite (chat_end_failed outcome Hfailed). cbn.
    by rewrite <- !app_assoc.
  - intros w file outcome e Hfetch Hfailed.
    destruct (proj1 (request_failed_failure upload_fallback outcome) Hfailed)
      as [err Herr].
    exists err. split; [exact Herr|].
    intros w' msg. subst w' msg.
    rewrite (uploadFile_failure_run w file outcome e err Hfetch Herr).
    unfold clearFileInput, reported_failure, uploading_world, rendered_error,
      truthy_string. cbn.
    destruct (fileInput (ui w)); cbn;
      by destruct (String.eqb (message_or err upload_fallback_message) "").
Qed.

(** *** Which handlers touch the document list *)

Section Keeps.
Context (P : json → Prop).

#[local] Abbreviation kept m := (@keeps Env P _ m).

Lemma keeps_ret {A : Type} (a : A) : kept (ret a).
Proof. by intros w. Qed.

Lemma keeps_throw {A : Type} (e : thrown) : kept (throw (A := A) e).
Proof. by intros w. Qed.

Lemma keeps_await {A : Type} (r : result A) : kept (await r).
Proof. by intros w. Qed.

Lemma keeps_bind {A B : Type} (m : M Env A) (k : A → M Env B) :
  kept m → (∀ a, kept (k a)) → kept (bind m k).
Proof.
  intros Hm Hk w Hw. unfold bind. specialize (Hm w Hw).
  destruct (m w) as [[a|e] w1]; cbn in *; [by apply Hk|done].
Qed.

Lemma keeps_try_catch {A : Type} (m : M Env A) (h : thrown → M Env A) :
  kept m → (∀ e, kept (h e)) → kept (try_catch m h).
Proof.
  intros Hm Hh w Hw. unfold try_catch. specialize (Hm w Hw).
  destruct (m w) as [[a|e] w1]; cbn in *; [done|by apply Hh].
Qed.

Lemma keeps_finally {A : Type} (m : M Env A) (c : M Env unit) :
  kept m → kept c → kept (finally m c).
Proof.
  intros Hm Hc w Hw. unfold finally. specialize (Hm w Hw).
  destruct (m w) as [r w1]; cbn in *. specialize (Hc w1 Hm).
  by destruct (c w1) as [[|] w2].
Qed.

Lemma keeps_when (c : bool) (m : M Env unit) : kept m → kept (when c m).
Proof. intros Hm. destruct c; [done|apply keeps_ret]. Qed.

Lemma keeps_update (f : State → State) (e : State → Effect) :
  (∀ st, documents (f st) = documents st) → kept (update f e).
Proof. intros Hf w Hw. cbn. by rewrite Hf. Qed.

Lemma keeps_setMessages (f : list Message → list Message) : kept (setMessages f).
Proof. by apply keeps_update. Qed.

Lemma keeps_setMessagesWith (updater : list Message → result (list Message)) :
  kept (setMessagesWith updater).
Proof.
  intros w Hw. unfold setMessagesWith. by destruct (updater (messages (ui w))).
Qed.

Lemma keeps_setInput (v : string) : kept (setInput v).
Proof. by apply keeps_update. Qed.

Lemma keeps_setIsLoading (v : bool) : kept (setIsLoading v).
Proof. by apply keeps_update. Qed.

Lemma keeps_setUploadStatus (v : UploadStatus.t) : kept (setUploadStatus v).
Proof. by apply keeps_update. Qed.

Lemma keeps_setIsSidebarOpen (v : bool) : kept (setIsSidebarOpen v).
Proof. by apply keeps_update. Qed.

Lemma keeps_setDragActive (v : bool) : kept (setDragActive v).
Proof. by apply keeps_update. Qed.

Lemma keeps_setError (v : option string) : kept (setError v).
Proof. by apply keeps_update. Qed.

Lemma keeps_setTimeout (callback : Timer) (ms : Z) : kept (setTimeout callback ms).
Proof. by intros w. Qed.

Lemma keeps_clearFileInput : kept clearFileInput.
Proof. intros w Hw. unfold clearFileInput. by destruct (fileInput (ui w)). Qed.

Lemma keeps_do_fetch (req : Request) : kept (do_fetch req).
Proof. intros w Hw. unfold do_fetch. by destruct (fetch req (env w)). Qed.

Lemma keeps_do_confirm (text : string) : kept (do_confirm text).
Proof. intros w Hw. unfold do_confirm. by destruct (confirm text (env w)). Qed.

Lemma keeps_setDocuments (v : json) : P v → kept (setDocuments v).
Proof. by intros Hv w _. Qed.

Lemma keeps_throw_http_error (fallback : string) (r : Response) :
  kept (throw_http_error fallback r).
Proof. intros w Hw. by rewrite throw_http_error_spec. Qed.

Create HintDb keeps.
#[local] Hint Resolve keeps_ret keeps_throw keeps_await keeps_setMessages
  keeps_setMessagesWith
  keeps_setInput keeps_setIsLoading keeps_setUploadStatus keeps_setDragActive
  keeps_setError keeps_setTimeout keeps_clearFileInput keeps_do_fetch
  keeps_do_confirm keeps_throw_http_error : keeps.

(** Following the structure of a handler. *)
Ltac keep :=
  repeat
    match goal with
    | |- keeps _ (bind _ _) => apply keeps_bind; [|intros ?]
    | |- keeps _ (try_catch _ _) => apply keeps_try_catch; [|intros ?]
    | |- keeps _ (finally _ _) => apply keeps_finally
    | |- keeps _ (when _ _) => apply keeps_when
    | |- keeps _ (if ?c then _ else _) => destruct c
    | |- keeps _ (match ?x with Some _ => _ | None => _ end) => destruct x
    | |- keeps _ (let _ := _ in _) => cbv zeta
    end;
  auto with keeps nocore.

(** The list set by [fetchDocuments] has the property: the empty list has
    it, and so has every list that a successful listing brings. *)
Context (P_empty : P (JArr [])).
Context (P_listed : ∀ env r env' data docs,
            fetch documents_request env = (Ok r, env') →
            json_body r = Ok data →
            prop data "documents" = Ok docs →
            P (or_default docs (JArr []))).

Lemma keeps_fetchDocuments : kept fetchDocuments.
Proof.
  intros w _. unfold fetchDocuments, try_catch, bind at 1, do_fetch.
  destruct (fetch documents_request (env w)) as [[r|e0] e] eqn:Hfetch; [|done].
  assert (Hcatch : ∀ (e1 : thrown) (w1 : World Env),
            P (documents (ui (snd ((setError (Some (message_or e1 "Failed to load documents"));;
                                    setDocuments (JArr [])) w1))))) by done.
  unfold bind at 1. unfold when.
  destruct (ok r); cbn [negb].
  - unfold ret at 1. unfold bind at 1, await at 1.
    destruct (json_body r) as [data|e1] eqn:Hjson; [|apply Hcatch].
    unfold bind at 1, await at 1.
    destruct (prop data "documents") as [docs|e1] eqn:Hdocs; [|apply Hcatch].
    cbn. by eapply P_listed.
  - rewrite throw_http_error_spec. apply Hcatch.
Qed.

#[local] Hint Resolve keeps_fetchDocuments : keeps.

Lemma keeps_handleSendMessage (snap : State) : kept (handleSendMessage snap).
Proof.
  unfold handleSendMessage. keep.
Qed.

Lemma keeps_uploadFile (file : option File) : kept (uploadFile file).
Proof.
  unfold uploadFile. keep.
Qed.

Lemma keeps_handleFileChange (files : list File) : kept (handleFileChange files).
Proof.
  pose proof keeps_uploadFile. unfold handleFileChange. keep.
Qed.

Lemma keeps_handleDrag (event_type : string) : kept (handleDrag event_type).
Proof.
  unfold handleDrag. keep.
Qed.

Lemma keeps_handleDrop (files : list File) : kept (handleDrop files).
Proof.
  pose proof keeps_uploadFile. unfold handleDrop. keep.
Qed.

Lemma keeps_handleDeleteDocument (name : string) : kept (handleDeleteDocument name).
Proof.
  unfold handleDeleteDocument. keep.
Qed.

Lemma keeps_timer_fired (callback : Timer) : kept (timer_fired callback).
Proof. destruct callback; cbn; keep. Qed.

End Keeps.

(** *** The requests of an upload *)

Lemma fetchDocuments_trace (w : World Env) :
  ∃ later, trace (snd (fetchDocuments w)) = (trace w ++ later)%list.
Proof.
  run_page. destruct (fetch documents_request (env w)) as [[r|e0] e]; cbn;
    [|eexists; by rewrite <- !app_assoc].
  destruct (ok r); cbn.
  - destruct (json_body r) as [data|]; cbn; [|eexists; by rewrite <- !app_assoc].
    destruct (prop data "documents"); cbn; eexists; by rewrite <- !app_assoc.
  - destruct (json_body r) as [data|]; cbn.
    + destruct (prop data "detail"); cbn; [eexists; by rewrite <- !app_assoc|].
      destruct (text_after_json r); cbn; eexists; by rewrite <- !app_assoc.
    + destruct (text_after_json r); cbn; eexists; by rewrite <- !app_assoc.
Qed.

Lemma clearFileInput_trace (w : World Env) :
  ∃ later, trace (snd (clearFileInput w)) = (trace w ++ later)%list.
Proof.
  unfold clearFileInput. destruct (fileInput (ui w)); cbn; eexists; [done|].
  by rewrite app_nil_r.
Qed.

Lemma uploadFile_sends_form (w : World Env) (file : File) :
  ∃ later,
    trace (snd (uploadFile (Some file) w)) =
      (trace w ++ [SetUploadStatus UploadStatus.uploading; SetError None;
                   Fetch (upload_request file)] ++ later)%list.
Proof.
  destruct (fetch (upload_request file) (env w)) as [outcome e] eqn:Hfetch.
  destruct (failure upload_fallback outcome) as [err|] eqn:Hfailure.
  - rewrite (uploadFile_failure_run w file outcome e err Hfetch Hfailure). cbn [snd].
    destruct (clearFileInput_trace (reported_failure err (uploading_world file e w)))
      as [later ->].
    cbn. eexists. by rewrite <- !app_assoc.
  - unfold failure in Hfailure. destruct outcome as [r|]; [|done].
    destruct (ok r) eqn:Hok; [|done].
    destruct (json_body r) as [result|] eqn:Hjson; [|done].
    rewrite (uploadFile_success_run w file r e result Hfetch Hok Hjson). cbn [snd].
    destruct (clearFileInput_trace
                (reported_success (snd (fetchDocuments (uploading_world file e w)))))
      as [later ->].
    cbn [reported_success trace].
    destruct (fetchDocuments_trace (uploading_world file e w)) as [listed ->].
    cbn. eexists. by rewrite <- !app_assoc.
Qed.

End PageFacts.

(** ** The page in front of the backend *)

Section DeployedFacts.
Import Deployed.

Lemma deployed_fetch_calm (n : nat) (req : Request) (d : Deployed.t) :
  calm (S n) (outages d) = true →
  fetch req d =
    (Ok (fst (Backend.serve req (backend d))),
     {| backend := snd (Backend.serve req (backend d));
        outages := tail (outages d);
        answers := answers d |}) ∧
  calm n (tail (outages d)) = true.
Proof.
  unfold calm. cbn. unfold deployed_fetch.
  destruct (outages d) as [|[] rest]; cbn; try done;
    destruct (Backend.serve req (backend d)); try done.
  by destruct n.
Qed.

Lemma document_keys_listing (m : gmap string Backend.Document) :
  document_keys (Backend.listing m) = Ok (listed_names m).
Proof.
  unfold Backend.listing, listed_names. cbn.
  induction (map_to_list m) as [|entry entries IH]; [done|].
  cbn. cbn in IH. by rewrite IH.
Qed.

Lemma elem_of_listed_names (m : gmap string Backend.Document) (name : string) :
  Some (JStr name) ∈ listed_names m ↔ is_Some (m !! name).
Proof.
  unfold listed_names. split.
  - intros H. apply list_elem_of_In, in_map_iff in H as ([k v] & [= ->] & Hin).
    apply list_elem_of_In, elem_of_map_to_list in Hin. eauto.
  - intros [v Hv]. apply list_elem_of_In, in_map_iff. exists (name, v).
    split; [done|]. by apply list_elem_of_In, elem_of_map_to_list.
Qed.

Lemma NoDup_listed_names (m : gmap string Backend.Document) :
  NoDup (listed_names m).
Proof.
  unfold listed_names.
  pose proof (NoDup_fst_map_to_list m) as H.
  replace (map (fun entry : string * Backend.Document => Some (JStr (fst entry))) (map_to_list m))
    with ((fun k => Some (JStr k)) <$> (map_to_list m).*1).
  - apply NoDup_fmap_2; [|done]. by intros k1 k2 [= ->].
  - by rewrite <- list_fmap_compose.
Qed.

Lemma unique_names_empty : unique_names (JArr []).
Proof. exists []. split; [done|apply NoDup_nil_2]. Qed.

Lemma unique_names_listing (m : gmap string Backend.Document) :
  unique_names (Backend.listing m).
Proof.
  exists (listed_names m). split; [apply document_keys_listing|apply NoDup_listed_names].
Qed.

Lemma serve_upload (file : File) (b : Backend.t) :
  Backend.serve (upload_request file) b =
    (Backend.json_response 200
       (JObj [("message", JStr "Document uploaded");
              ("filename", JStr (file_name file))]),
     Backend.store (file_name file) file b).
Proof. reflexivity. Qed.

Lemma serve_documents (b : Backend.t) :
  Backend.serve documents_request b =
    (Backend.json_response 200 (JObj [("documents", Backend.listing (Backend.docs b))]), b).
Proof. reflexivity. Qed.

Lemma serve_delete (name : string) (b : Backend.t) :
  Backend.serve (delete_request name) b = Backend.delete_document name b.
Proof. reflexivity. Qed.

(** A listing that reaches the backend replaces the displayed list by the
    backend's. *)
Lemma fetchDocuments_deployed (w : World Deployed.t) :
  calm 1 (outages (env w)) = true →
  fetchDocuments w =
    (Ok (),
     let listed := Backend.listing (Backend.docs (backend (env w))) in
     {| ui := with_documents listed (ui w);
        env := {| backend := backend (env w); outages := tail (outages (env w));
                  answers := answers (env w) |};
        trace := (trace w ++ [Fetch documents_request; SetDocuments listed])%list |}).
Proof.
  intros Hcalm.
  destruct (deployed_fetch_calm 0 documents_request (env w) Hcalm) as [Hfetch _].
  rewrite serve_documents in Hfetch. cbn [fst snd] in Hfetch.
  by rewrite (fetchDocuments_success_run w _ _ _ _ Hfetch eq_refl eq_refl eq_refl).
Qed.

(** C3. When the upload request and the listing that follows it reach the
    backend, [uploadFile] fetches the document list before it reports
    success, the displayed list is the backend's list, and that list
    carries the name of the uploaded file. *)
Theorem uploaded_document_is_listed (w : World Deployed.t) (file : File) :
  calm 2 (outages (env w)) = true →
  let name := file_name file in
  let stored := Backend.store name file (backend (env w)) in
  let w' := snd (uploadFile (Some file) w) in
  (∃ confirmation, fst (uploadFile (Some file) w) = Ok (Some confirmation)) ∧
  backend (env w') = stored ∧
  documents (ui w') = Backend.listing (Backend.docs stored) ∧
  (∃ keys, document_keys (documents (ui w')) = Ok keys ∧ Some (JStr name) ∈ keys) ∧
  uploadStatus (ui w') = UploadStatus.success ∧
  trace w' =
    (trace w ++ [SetUploadStatus UploadStatus.uploading; SetError None;
                 Fetch (upload_request file);
                 Fetch documents_request;
                 SetDocuments (Backend.listing (Backend.docs stored));
                 SetUploadStatus UploadStatus.success;
                 SetTimeout 3000 ResetUploadStatus]
             ++ match fileInput (ui w) with
                | Some _ => [ClearFileInput]
                | None => []
                end)%list.
Proof.
  intros Hcalm name stored w'.
  destruct (deployed_fetch_calm 1 (upload_request file) (env w) Hcalm) as [Hfetch Hcalm'].
  rewrite serve_upload in Hfetch. cbn [fst snd] in Hfetch.
  pose proof (uploadFile_success_run w file _ _ _ Hfetch eq_refl eq_refl) as Hrun.
  rewrite fetchDocuments_deployed in Hrun by exact Hcalm'.
  subst w'. rewrite Hrun. cbn [fst snd].
  split; [eauto|].
  unfold clearFileInput, reported_success, uploading_world, update. cbn.
  assert (Hin : ∃ keys, document_keys (Backend.listing (Backend.docs stored)) = Ok keys ∧
                        Some (JStr name) ∈ keys).
  { exists (listed_names (Backend.docs stored)). split; [apply document_keys_listing|].
    apply elem_of_listed_names. subst stored. unfold Backend.store. cbn.
    rewrite lookup_insert_eq. eauto. }
  destruct (fileInput (ui w)); cbn; rewrite <- ?app_assoc; cbn; rewrite ?app_nil_r;
    repeat split; done.
Qed.

Lemma delete_succeeds_iff (name : string) (b : Backend.t) :
  ok (fst (Backend.serve (delete_request name) b)) = true ↔
  is_Some (Backend.docs b !! name).
Proof.
  rewrite serve_delete. unfold Backend.delete_document.
  destruct (Backend.docs b !! name); cbn; split; intros H; eauto; try done.
Qed.

(** C4. When the user confirms, both requests reach the backend and the
    [DELETE] request succeeds, the list fetched by [handleDeleteDocument]
    is the backend's list with that one record erased: the name is gone
    from it and every other document is still there, with its record
    untouched. *)
Theorem deleted_document_leaves_listing
    (w : World Deployed.t) (name : string) (later : list bool) :
  answers (env w) = (true :: later) →
  calm 2 (outages (env w)) = true →
  ok (fst (Backend.serve (delete_request name) (backend (env w)))) = true →
  let before := Backend.docs (backend (env w)) in
  let w' := snd (handleDeleteDocument name w) in
  Backend.docs (backend (env w')) = delete name before ∧
  documents (ui w') = Backend.listing (delete name before) ∧
  ∃ keys,
    document_keys (documents (ui w')) = Ok keys ∧
    (Some (JStr name) ∉ keys) ∧
    (∀ other, other ≠ name →
       (delete name before !! other = before !! other) ∧
       (Some (JStr other) ∈ keys ↔ is_Some (before !! other))).
Proof.
  intros Hanswer Hcalm Hok before w'.
  apply delete_succeeds_iff in Hok as [doc Hdoc].
  assert (Hrun : w' =
    {| ui := with_documents (Backend.listing (delete name before)) (ui w);
       env := {| backend := {| Backend.docs := delete name before;
                               Backend.clock := Backend.clock (backend (env w));
                               Backend.generations := Backend.generations (backend (env w)) |};
                 outages := tail (tail (outages (env w)));
                 answers := later |};
       trace := (trace w ++ [Confirm ("Are you sure you want to delete " +:+ name +:+ "?");
                             Fetch (delete_request name);
                             Fetch documents_request;
                             SetDocuments (Backend.listing (delete name before))])%list |}).
  { subst w'. unfold handleDeleteDocument, bind at 1, do_confirm. cbn [confirm platform].
    unfold deployed_confirm. rewrite Hanswer. cbn [negb].
    unfold try_catch, bind at 1, do_fetch.
    match goal with
    | |- context [fetch (delete_request name) ?d] =>
        destruct (deployed_fetch_calm 1 (delete_request name) d Hcalm) as [Hfetch Hcalm']
    end.
    cbn [env] in *. rewrite Hfetch. rewrite serve_delete.
    unfold Backend.delete_document. cbn [backend]. rewrite Hdoc. cbn [fst snd].
    unfold bind at 1, when. cbn -[fetchDocuments].
    rewrite fetchDocuments_deployed by exact Hcalm'.
    cbn. by rewrite <- !app_assoc. }
  rewrite Hrun. cbn [ui env documents with_documents backend Backend.docs].
  split; [done|]. split; [done|].
  exists (listed_names (delete name before)).
  split; [apply document_keys_listing|]. split.
  - rewrite elem_of_listed_names, lookup_delete_eq. by intros [? ?].
  - intros other Hother. rewrite elem_of_listed_names.
    by rewrite lookup_delete_ne.
Qed.

Lemma deployed_listing_unique (d : Deployed.t) (r : Response) (d' : Deployed.t)
    (data : json) (docs : jsval) :
  fetch documents_request d = (Ok r, d') →
  json_body r = Ok data →
  prop data "documents" = Ok docs →
  unique_names (or_default docs (JArr [])).
Proof.
  cbn [fetch platform]. unfold deployed_fetch. intros Hfetch Hjson Hdocs.
  rewrite serve_documents in Hfetch.
  assert (Hr : r = Backend.json_response 200
                     (JObj [("documents", Backend.listing (Backend.docs (backend d)))])).
  { destruct (outages d) as [|[] rest]; congruence. }
  subst r. injection Hjson as <-. injection Hdocs as <-.
  apply unique_names_listing.
Qed.

Lemma run_keeps_unique_names (a : Action) : keeps unique_names (run a).
Proof.
  pose proof unique_names_empty as Hempty.
  destruct a; cbn [run].
  - exact (keeps_fetchDocuments unique_names Hempty deployed_listing_unique).
  - apply keeps_setInput.
  - intros w.
    exact (keeps_handleSendMessage unique_names (ui w) w).
  - intros w. apply keeps_setIsSidebarOpen.
  - apply keeps_setIsSidebarOpen.
  - exact (keeps_handleFileChange unique_names Hempty deployed_listing_unique files).
  - apply keeps_handleDrag.
  - exact (keeps_handleDrop unique_names Hempty deployed_listing_unique files).
  - exact (keeps_handleDeleteDocument unique_names Hempty deployed_listing_unique name).
  - apply keeps_timer_fired.
Qed.

Lemma run_all_keeps_unique_names (actions : list Action) (w : World Deployed.t) :
  unique_names (documents (ui w)) →
  unique_names (documents (ui (run_all w actions))).
Proof.
  revert w. induction actions as [|a actions IH]; intros w Hw; [done|].
  cbn. apply IH. by apply run_keeps_unique_names.
Qed.

(** C7. In every document list the page comes to hold, whatever the user
    does and whatever the network does, each file name occurs at most
    once; and uploading a file under a name that is already stored
    overwrites the record instead of adding a second one. *)
Theorem filenames_are_unique :
  (∀ (d : Deployed.t) (actions : list Action),
     ∃ keys, document_keys (documents (ui (run_all (start d) actions))) = Ok keys ∧
             NoDup keys) ∧
  (∀ (b : Backend.t) (first second : File),
     file_name second = file_name first →
     let b1 := snd (Backend.serve (upload_request first) b) in
     let b2 := snd (Backend.serve (upload_request second) b1) in
     base.size (Backend.docs b2) = base.size (Backend.docs b1) ∧
     (doc_content_of b2 (file_name first) = Some (file_content second)) ∧
     ∃ keys, document_keys (Backend.listing (Backend.docs b2)) = Ok keys ∧ NoDup keys).
Proof.
  split.
  - intros d actions. apply run_all_keeps_unique_names. apply unique_names_empty.
  - intros b first second Hname b1 b2. subst b1 b2.
    rewrite !serve_upload. cbn [snd]. rewrite Hname.
    unfold doc_content_of, Backend.store. cbn.
    rewrite insert_insert_eq, lookup_insert_eq. cbn.
    split; [|split; [done|apply unique_names_listing]].
    by rewrite !map_size_insert.
Qed.
End DeployedFacts.

(** ** The proxy route *)

Section ProxyFacts.
Import Proxy.
Context (NEXT_PUBLIC_API_URL : option string) (fetch : Forwarded → result Response).

Lemma forwarded_body (req : NextApiRequest) :
  fwd_body (forwarded NEXT_PUBLIC_API_URL req) = NoBody ∨
  fwd_body (forwarded NEXT_PUBLIC_API_URL req) = JsonText (body req).
Proof. unfold forwarded. cbn. destruct (_ && _); eauto. Qed.

Lemma forwarded_never_multipart (req : NextApiRequest) (form : FormData) :
  fwd_body (forwarded NEXT_PUBLIC_API_URL req) ≠ Multipart form.
Proof. by destruct (forwarded_body req) as [-> | ->]. Qed.

(** C6. When the backend's response has a JSON body, the proxy sends back
    its status and that body unchanged. When the request fails or the body
    is not JSON, it sends status 500 with a JSON body that carries the
    message [Internal Server Error], under the key [error]. *)
Theorem proxy_reply (req : NextApiRequest) :
  (∀ response data,
     fetch (forwarded NEXT_PUBLIC_API_URL req) = Ok response →
     json_body response = Ok data →
     handler NEXT_PUBLIC_API_URL fetch req =
       {| reply_status := status response; reply_json := data |}) ∧
  (request_failed_unparsed (fetch (forwarded NEXT_PUBLIC_API_URL req)) = true →
     handler NEXT_PUBLIC_API_URL fetch req =
       {| reply_status := 500;
          reply_json := JObj [("error", JStr "Internal Server Error")] |}).
Proof.
  unfold handler, request_failed_unparsed. split.
  - by intros response data -> ->.
  - destruct (fetch _) as [response|]; [|done].
    by destruct (json_body response).
Qed.

End ProxyFacts.

(** C2. The page sends an upload as a multipart form holding the file and
    its name; the proxy route forwards the same upload as the JSON text of
    the parsed body, under a JSON content type, and never as a form. *)
Theorem upload_form_is_reserialized_by_proxy
    {Env : Type} `{!Platform Env} (w : World Env) (file : File)
    (NEXT_PUBLIC_API_URL : option string) (raw : string) :
  let sent := upload_request file in
  let forwarded := Proxy.forwarded NEXT_PUBLIC_API_URL (Sample.upload_through_proxy raw) in
  (req_method sent = "POST" ∧ url_route (req_url sent) = RUploadDocument ∧
   req_body sent = Multipart [("file", FormFile file);
                              ("filename", FormString (file_name file))]) ∧
  (∃ later,
     trace (snd (uploadFile (Some file) w)) =
       (trace w ++ [SetUploadStatus UploadStatus.uploading; SetError None; Fetch sent]
                ++ later)%list) ∧
  Proxy.fwd_body forwarded = JsonText (Some (JStr raw)) ∧
  (∀ form, Proxy.fwd_body forwarded ≠ Multipart form) ∧
  head (Proxy.fwd_headers forwarded) = Some ("Content-Type", "application/json").
Proof.
  intros sent forwarded. split; [done|]. split; [apply uploadFile_sends_form|].
  split; [done|]. split; [|done].
  intros form. apply forwarded_never_multipart.
Qed.

(** ** Runs that show the limits *)

Section Runs.
Import Scripted.

(** C1: after an [ok] response whose body is not JSON, the assistant
    message that is appended holds the fixed error sentence and not a
    property of the body. *)
Lemma ok_response_without_json_gets_error_sentence :
  let w := Sample.asking "What is the rate?" [Ok Sample.html_answer] in
  trim (input (ui w)) ≠ "" ∧
  ok Sample.html_answer = true ∧
  messages (ui (snd (submit w))) =
    [{| role := user; content := Some (JStr "What is the rate?"); source := undefined |};
     {| role := assistant;
        content := Some (JStr "Sorry, I encountered an error. Please try again.");
        source := undefined |}].
Proof. vm_compute. by repeat split. Qed.

(** C5. Two failed uploads whose message does not reach the page. A
    rejection whose [detail] is an empty list leaves the empty string in
    the error state, and the error line shows nothing. After an error
    status with a body that is not JSON, the text of the response is not
    shown: [text()] rejects once [json()] has been tried, and the error
    state holds the message of that rejection. *)
Theorem failed_upload_can_miss_its_message :
  let rejected :=
    uploadFile (Some Sample.notes) (Sample.asking "" [Ok Sample.empty_detail]) in
  let gateway :=
    uploadFile (Some Sample.notes) (Sample.asking "" [Ok Sample.bad_gateway]) in
  (request_failed (Ok Sample.empty_detail) = true ∧
   fst rejected = Throw (ErrorObj "") ∧
   uploadStatus (ui (snd rejected)) = UploadStatus.error ∧
   error (ui (snd rejected)) = Some "" ∧
   rendered_error (ui (snd rejected)) = None) ∧
  (request_failed (Ok Sample.bad_gateway) = true ∧
   text_after_json Sample.bad_gateway = Throw (ErrorObj "body stream already read") ∧
   fst gateway = Throw (ErrorObj "body stream already read") ∧
   uploadStatus (ui (snd gateway)) = UploadStatus.error ∧
   error (ui (snd gateway)) = Some "body stream already read").
Proof. vm_compute. by repeat split. Qed.

End Runs.

(** ** The properties at work on sample runs *)

Section ScriptedWitnesses.
Import Scripted.

Lemma chat_submission_posts_message_and_history_witness :
  let w := Sample.asking "What is the rate?" [Ok Sample.answer] in
  trim (input (ui w)) ≠ "" ∧
  req_url (chat_request (input (ui w)) (messages (ui w))) =
    {| url_base := "http://127.0.0.1:8000/api"; url_route := RChat |} ∧
  messages (ui (snd (submit w))) =
    [user_message "What is the rate?";
     {| role := assistant; content := Some (JStr "The rate is 4.5.");
        source := Some (JStr "rates.txt") |}].
Proof.
  intros w.
  assert (Hinput : trim (input (ui w)) ≠ "") by (vm_compute; discriminate).
  split; [exact Hinput|].
  destruct (chat_submission_posts_message_and_history w Hinput)
    as ((Hrequest & _) & _ & Hok & _).
  split; [exact (f_equal req_url Hrequest)|].
  destruct (Hok Sample.answer (Scripted.mkScripted [] []) _ eq_refl eq_refl eq_refl)
    as (a & b & Ha & Hb & Hmessages & _); [discriminate|].
  injection Ha as <-. injection Hb as <-. exact Hmessages.
Defined.

Lemma blank_submission_is_noop_witness :
  let w := Sample.asking "   " [Ok Sample.answer] in
  whitespace_only (input (ui w)) = true ∧ submit w = (Ok (), w).
Proof.
  intros w. split; [reflexivity|].
  apply (blank_submission_is_noop (ui w) w). reflexivity.
Defined.

End ScriptedWitnesses.

Section DeployedWitnesses.
Import Deployed.

Lemma failed_listing_clears_documents_witness :
  request_failed (Throw (ErrorObj "Failed to fetch")) = true ∧
  documents (ui Sample.offline) ≠ JArr [] ∧
  documents (ui (snd (fetchDocuments Sample.offline))) = JArr [] ∧
  error (ui (snd (fetchDocuments Sample.offline))) = Some "Failed to fetch".
Proof.
  split; [reflexivity|]. split; [vm_compute; discriminate|].
  assert (Hfetch : fetch documents_request (env Sample.offline) =
                     (Throw (ErrorObj "Failed to fetch"),
                      snd (fetch documents_request (env Sample.offline))))
    by (vm_compute; reflexivity).
  destruct (failed_listing_clears_documents Sample.offline _ _ Hfetch eq_refl)
    as (err & Herr & Hdocs & Herror & _).
  injection Herr as <-. split; [exact Hdocs|exact Herror].
Defined.

Lemma uploaded_document_is_listed_witness :
  calm 2 (outages (env Sample.deployed)) = true ∧
  ∃ keys,
    document_keys (documents (ui (snd (uploadFile (Some Sample.notes) Sample.deployed))))
      = Ok keys ∧
    Some (JStr "notes.txt") ∈ keys.
Proof.
  split; [reflexivity|].
  destruct (uploaded_document_is_listed Sample.deployed Sample.notes eq_refl)
    as (_ & _ & _ & Hlisted & _).
  exact Hlisted.
Defined.

Lemma deleted_document_leaves_listing_witness :
  let w' := snd (handleDeleteDocument "rates.txt" Sample.deployed) in
  answers (env Sample.deployed) = [true] ∧
  calm 2 (outages (env Sample.deployed)) = true ∧
  ok (fst (Backend.serve (delete_request "rates.txt") (backend (env Sample.deployed)))) = true ∧
  ∃ keys,
    document_keys (documents (ui w')) = Ok keys ∧
    (Some (JStr "rates.txt") ∉ keys) ∧
    (Some (JStr "terms.txt") ∈ keys).
Proof.
  intros w'.
  assert (Hok : ok (fst (Backend.serve (delete_request "rates.txt")
                                      (backend (env Sample.deployed)))) = true)
    by (vm_compute; reflexivity).
  split; [reflexivity|]. split; [reflexivity|]. split; [exact Hok|].
  destruct (deleted_document_leaves_listing Sample.deployed "rates.txt" []
              eq_refl eq_refl Hok) as (_ & _ & keys & Hkeys & Hgone & Hothers).
  exists keys. split; [exact Hkeys|]. split; [exact Hgone|].
  destruct (Hothers "terms.txt") as [_ Hterms]; [discriminate|].
  apply Hterms. eexists. vm_compute. reflexivity.
Defined.

Lemma filenames_are_unique_witness :
  let revised := {| file_name := "rates.txt"; file_size := 3; file_type := "text/plain";
                    file_content := "5.0" |} in
  file_name revised = file_name Sample.rates ∧
  doc_content_of
    (snd (Backend.serve (upload_request revised)
            (snd (Backend.serve (upload_request Sample.rates) Sample.backend))))
    "rates.txt" = Some "5.0" ∧
  ∃ keys,
    document_keys
      (documents (ui (run_all Sample.deployed
                        [PickFile [Sample.rates]; PickFile [revised]]))) = Ok keys ∧
    NoDup keys.
Proof.
  intros revised. split; [reflexivity|].
  destruct filenames_are_unique as [Hpage Hbackend]. split.
  - destruct (Hbackend Sample.backend Sample.rates revised eq_refl) as (_ & Hcontent & _).
    exact Hcontent.
  - apply Hpage.
Defined.

Lemma proxy_reply_witness :
  Proxy.handler None (Sample.reachable Sample.answer) Sample.listing_through_proxy =
    {| Proxy.reply_status := 200; Proxy.reply_json :=
         JObj [("response", JStr "The rate is 4.5."); ("source", JStr "rates.txt")] |} ∧
  request_failed_unparsed (Sample.unreachable
                             (Proxy.forwarded None Sample.listing_through_proxy)) = true ∧
  Proxy.handler None Sample.unreachable Sample.listing_through_proxy =
    {| Proxy.reply_status := 500;
       Proxy.reply_json := JObj [("error", JStr "Internal Server Error")] |}.
Proof.
  split; [|split; [reflexivity|]].
  - destruct (proxy_reply None (Sample.reachable Sample.answer) Sample.listing_through_proxy)
      as [Hok _].
    exact (Hok Sample.answer _ eq_refl eq_refl).
  - destruct (proxy_reply None Sample.unreachable Sample.listing_through_proxy)
      as [_ Hfailed].
    exact (Hfailed eq_refl).
Defined.

End DeployedWitnesses.

(** * Further properties of the handlers *)

Lemma requests_app (t1 t2 : list Effect) :
  requests (t1 ++ t2) = (requests t1 ++ requests t2)%list.
Proof.
  induction t1 as [|[] t1 IH]; cbn; by rewrite ?IH.
Qed.

Section Combinators.
Context {Env : Type} `{!Platform Env}.

(** *** Handlers that never throw *)

Lemma returns_ret {A : Type} (a : A) : @returns Env A (ret a).
Proof. intros w. by exists a. Qed.

Lemma returns_bind {A B : Type} (m : M Env A) (k : A → M Env B) :
  returns m → (∀ a, returns (k a)) → returns (bind m k).
Proof.
  intros Hm Hk w. unfold bind. destruct (Hm w) as [a Ha].
  destruct (m w) as [r w1]. cbn in Ha. subst r. apply Hk.
Qed.

Lemma returns_try_catch {A : Type} (m : M Env A) (h : thrown → M Env A) :
  (∀ e, returns (h e)) → returns (try_catch m h).
Proof.
  intros Hh w. unfold try_catch. destruct (m w) as [[a|e] w1]; [by exists a|apply Hh].
Qed.

Lemma returns_finally {A : Type} (m : M Env A) (c : M Env unit) :
  returns m → returns c → returns (finally m c).
Proof.
  intros Hm Hc w. unfold finally. destruct (Hm w) as [a Ha].
  destruct (m w) as [r w1]. cbn in Ha. subst r.
  destruct (Hc w1) as [[] Hu]. destruct (c w1) as [r w2]. cbn in Hu. subst r.
  by exists a.
Qed.

Lemma returns_update (f : State → State) (e : State → Effect) : @returns Env _ (update f e).
Proof. intros w. by exists (). Qed.

Lemma returns_do_confirm (text : string) : returns (do_confirm text).
Proof. intros w. unfold do_confirm. destruct (confirm text (env w)) as [b e]. by exists b. Qed.

(** *** Handlers that leave a part of the state alone *)

Section Preserves.
Context {A : Type} (part : State → A).

#[local] Abbreviation kept m := (@preserves Env A _ part m).

Lemma preserves_ret {B : Type} (b : B) : kept (ret b).
Proof. by intros w. Qed.

Lemma preserves_throw {B : Type} (e : thrown) : kept (throw (A := B) e).
Proof. by intros w. Qed.

Lemma preserves_await {B : Type} (r : result B) : kept (await r).
Proof. by intros w. Qed.

Lemma preserves_bind {B C : Type} (m : M Env B) (k : B → M Env C) :
  kept m → (∀ b, kept (k b)) → kept (bind m k).
Proof.
  intros Hm Hk w. unfold bind. specialize (Hm w).
  destruct (m w) as [[b|e] w1]; cbn in *; [|done].
  by rewrite (Hk b w1).
Qed.

Lemma preserves_try_catch {B : Type} (m : M Env B) (h : thrown → M Env B) :
  kept m → (∀ e, kept (h e)) → kept (try_catch m h).
Proof.
  intros Hm Hh w. unfold try_catch. specialize (Hm w).
  destruct (m w) as [[b|e] w1]; cbn in *; [done|].
  by rewrite (Hh e w1).
Qed.

Lemma preserves_finally {B : Type} (m : M Env B) (c : M Env unit) :
  kept m → kept c → kept (finally m c).
Proof.
  intros Hm Hc w. unfold finally. specialize (Hm w).
  destruct (m w) as [r w1]; cbn in *. specialize (Hc w1).
  destruct (c w1) as [[|] w2]; cbn in *; congruence.
Qed.

Lemma preserves_when (c : bool) (m : M Env unit) : kept m → kept (when c m).
Proof. intros Hm. destruct c; [done|apply preserves_ret]. Qed.

Lemma preserves_update (f : State → State) (e : State → Effect) :
  (∀ st, part (f st) = part st) → kept (update f e).
Proof. intros Hf w. cbn. apply Hf. Qed.

Lemma preserves_setTimeout (callback : Timer) (ms : Z) : kept (setTimeout callback ms).
Proof. by intros w. Qed.

Lemma preserves_do_fetch (req : Request) : kept (do_fetch req).
Proof. intros w. unfold do_fetch. by destruct (fetch req (env w)). Qed.

Lemma preserves_do_confirm (text : string) : kept (do_confirm text).
Proof. intros w. unfold do_confirm. by destruct (confirm text (env w)). Qed.

Lemma preserves_throw_http_error (fallback : string) (r : Response) :
  kept (throw_http_error fallback r).
Proof. intros w. by rewrite throw_http_error_spec. Qed.

Lemma preserves_setMessagesWith (updater : list Message → result (list Message)) :
  (∀ v st, part (with_messages v st) = part st) → kept (setMessagesWith updater).
Proof.
  intros Hf w. unfold setMessagesWith.
  destruct (updater (messages (ui w))); [apply Hf|done].
Qed.

Lemma preserves_clearFileInput :
  (∀ v st, part (with_fileInput v st) = part st) → kept clearFileInput.
Proof.
  intros Hf w. unfold clearFileInput. destruct (fileInput (ui w)); [apply Hf|done].
Qed.

End Preserves.

End Combinators.

(** Following the structure of a handler, for a given part of the state. *)
Ltac frame :=
  repeat
    match goal with
    | |- preserves _ (bind _ _) => apply preserves_bind; [|intros ?]
    | |- preserves _ (try_catch _ _) => apply preserves_try_catch; [|intros ?]
    | |- preserves _ (finally _ _) => apply preserves_finally
    | |- preserves _ (when _ _) => apply preserves_when
    | |- preserves _ (if ?c then _ else _) => destruct c
    | |- preserves _ (match ?x with Some _ => _ | None => _ end) => destruct x
    | |- preserves _ (let _ := _ in _) => cbv zeta
    | |- preserves _ (ret _) => apply preserves_ret
    | |- preserves _ (throw _) => apply preserves_throw
    | |- preserves _ (await _) => apply preserves_await
    | |- preserves _ (do_fetch _) => apply preserves_do_fetch
    | |- preserves _ (do_confirm _) => apply preserves_do_confirm
    | |- preserves _ (setTimeout _ _) => apply preserves_setTimeout
    | |- preserves _ (throw_http_error _ _) => apply preserves_throw_http_error
    | |- preserves _ (setMessagesWith _) => apply preserves_setMessagesWith; done
    | |- preserves _ clearFileInput => apply preserves_clearFileInput; done
    | |- preserves _ (setMessages _) => apply preserves_update; done
    | |- preserves _ (setInput _) => apply preserves_update; done
    | |- preserves _ (setIsLoading _) => apply preserves_update; done
    | |- preserves _ (setDocuments _) => apply preserves_update; done
    | |- preserves _ (setUploadStatus _) => apply preserves_update; done
    | |- preserves _ (setIsSidebarOpen _) => apply preserves_update; done
    | |- preserves _ (setDragActive _) => apply preserves_update; done
    | |- preserves _ (setError _) => apply preserves_update; done
    end.

(** Following the structure of a handler, to see that it never throws. *)
Ltac settle :=
  repeat
    match goal with
    | |- returns (bind _ _) => apply returns_bind; [|intros ?]
    | |- returns (try_catch _ _) => apply returns_try_catch; intros ?
    | |- returns (finally _ _) => apply returns_finally
    | |- returns (if ?c then _ else _) => destruct c
    | |- returns (match ?x with Some _ => _ | None => _ end) => destruct x
    | |- returns (let _ := _ in _) => cbv zeta
    | |- returns (ret _) => apply returns_ret
    | |- returns (do_confirm _) => apply returns_do_confirm
    | |- returns (setMessages _) => apply returns_update
    | |- returns (setInput _) => apply returns_update
    | |- returns (setIsLoading _) => apply returns_update
    | |- returns (setDocuments _) => apply returns_update
    | |- returns (setUploadStatus _) => apply returns_update
    | |- returns (setIsSidebarOpen _) => apply returns_update
    | |- returns (setDragActive _) => apply returns_update
    | |- returns (setError _) => apply returns_update
    end.

(** *** Suffixes *)

Lemma substring_all (s : string) : substring 0 (String.length s) s = s.
Proof. induction s as [|c s IH]; cbn; by rewrite ?IH. Qed.

Lemma substring_skip (p s : string) (k : nat) :
  substring (String.length p) k (p +:+ s) = substring 0 k s.
Proof.
  induction p as [|c p IH]; [done|].
  change (String c p +:+ s) with (String c (p +:+ s)). exact IH.
Qed.

Lemma substring_split (s : string) (i : nat) :
  (i ≤ String.length s)%nat →
  s = substring 0 i s +:+ substring i (String.length s - i)%nat s.
Proof.
  revert i. induction s as [|c s IH]; intros [|i] Hi; cbn in *.
  - done.
  - lia.
  - by rewrite substring_all.
  - change (String c s =
            String c (substring 0 i s +:+ substring i (String.length s - i) s)).
    f_equal. apply IH. lia.
Qed.

Lemma length_append (p s : string) :
  String.length (p +:+ s) = (String.length p + String.length s)%nat.
Proof.
  induction p as [|c p IH]; [done|].
  change (String c p +:+ s) with (String c (p +:+ s)). cbn. by rewrite IH.
Qed.

Lemma endsWith_spec (s suffix : string) :
  endsWith s suffix = true ↔ ∃ stem, s = stem +:+ suffix.
Proof.
  unfold endsWith. split.
  - intros [Hle Heq]%andb_true_iff. apply Nat.leb_le in Hle.
    apply String.eqb_eq in Heq.
    exists (substring 0 (String.length s - String.length suffix)%nat s).
    set (n := String.length s) in *. set (k := String.length suffix) in *.
    transitivity (substring 0 (n - k) s +:+ substring (n - k) (n - (n - k)) s).
    { apply substring_split. lia. }
    replace (n - (n - k))%nat with k by lia. by rewrite Heq.
  - intros [stem ->]. rewrite length_append. apply andb_true_iff. split.
    + apply Nat.leb_le. lia.
    + replace (String.length stem + String.length suffix - String.length suffix)%nat
        with (String.length stem) by lia.
      rewrite substring_skip, substring_all. apply String.eqb_refl.
Qed.

Section FurtherPageFacts.
Context {Env : Type} `{!Platform Env}.

Lemma fetchDocuments_outside_listing : preserves outside_listing (@fetchDocuments Env _).
Proof. unfold fetchDocuments. frame. Qed.

Lemma fetchDocuments_chat_part : preserves chat_part (@fetchDocuments Env _).
Proof. unfold fetchDocuments. frame. Qed.

Lemma uploadFile_chat_part (file : option File) : preserves chat_part (uploadFile file).
Proof. pose proof fetchDocuments_chat_part. unfold uploadFile. frame; done. Qed.

(** X3. Listing, uploading, picking, dragging, dropping and deleting
    documents, and the timer of an upload, never change the messages, the
    input or the loading flag of the chat. *)
Theorem document_handlers_leave_chat_alone :
  preserves chat_part (@fetchDocuments Env _) ∧
  (∀ file, preserves chat_part (uploadFile file)) ∧
  (∀ files, preserves chat_part (handleFileChange files)) ∧
  (∀ files, preserves chat_part (handleDrop files)) ∧
  (∀ event_type, preserves chat_part (@handleDrag Env event_type)) ∧
  (∀ name, preserves chat_part (handleDeleteDocument name)) ∧
  (∀ callback, preserves chat_part (@timer_fired Env callback)).
Proof.
  pose proof fetchDocuments_chat_part. pose proof uploadFile_chat_part.
  repeat split; try done.
  - intros files. unfold handleFileChange. frame; done.
  - intros files. unfold handleDrop. frame; done.
  - intros event_type. unfold handleDrag. frame; done.
  - intros name. unfold handleDeleteDocument. frame; done.
  - intros []. cbn. frame.
Qed.

(** X2. [fetchDocuments] and the event handlers [handleSendMessage],
    [handleFileChange], [handleDrop], [handleDrag] and
    [handleDeleteDocument] never throw: every failure inside them is
    caught. *)
Theorem event_handlers_never_throw :
  returns (@fetchDocuments Env _) ∧
  (∀ snap, returns (handleSendMessage snap)) ∧
  (∀ files, returns (handleFileChange files)) ∧
  (∀ files, returns (handleDrop files)) ∧
  (∀ event_type, returns (@handleDrag Env event_type)) ∧
  (∀ name, returns (handleDeleteDocument name)).
Proof.
  repeat split.
  - unfold fetchDocuments. settle.
  - intros snap. unfold handleSendMessage. settle.
  - intros files. unfold handleFileChange. settle.
  - intros files. unfold handleDrop. settle.
  - intros event_type. unfold handleDrag. settle.
  - intros name. unfold handleDeleteDocument. settle.
Qed.


(** X4. [handleSendMessage] never touches the document list, the upload
    status, the sidebar, the drag flag, the error or the file input. When
    the input it closed over is not blank it sends exactly one request,
    made from the input and messages of that render, and ends with the
    input cleared and the loading flag off, whatever the response. *)
Theorem chat_leaves_the_rest_alone (snap : State) (w : World Env) :
  let w' := snd (handleSendMessage snap w) in
  outside_chat (ui w') = outside_chat (ui w) ∧
  (trim (input snap) ≠ "" →
   isLoading (ui w') = false ∧
   input (ui w') = "" ∧
   requests (trace w') =
     (requests (trace w) ++ [chat_request (input snap) (messages snap)])%list).
Proof.
  intros w'. split.
  - subst w'. revert w. change (preserves outside_chat (handleSendMessage snap)).
    unfold handleSendMessage. frame.
  - intros Hinput. apply truthy_string_true in Hinput. subst w'.
    unfold handleSendMessage. rewrite Hinput. cbn [negb].
    unfold setMessagesWith. run_page.
    destruct (fetch _ (env w)) as [[r|e0] e]; cbn;
      [|by rewrite <- !app_assoc, requests_app].
    destruct (ok r); cbn; [|by rewrite <- !app_assoc, requests_app].
    destruct (json_body r) as [data|]; cbn; [|by rewrite <- !app_assoc, requests_app].
    destruct (prop data "response"); cbn; [|by rewrite <- !app_assoc, requests_app].
    destruct (prop data "source"); cbn; by rewrite <- !app_assoc, requests_app.
Qed.

Lemma typed_submission_requests (text : string) (w : World Env) :
  trim text ≠ "" →
  let typed := snd (setInput text w) in
  requests (trace (snd (submit typed))) =
    (requests (trace w) ++ [chat_request text (messages (ui w))])%list ∧
  messages (ui typed) = messages (ui w).
Proof.
  intros Htext typed. split; [|done].
  destruct (fetch (chat_request text (messages (ui w))) (env w)) as [outcome e] eqn:Hfetch.
  rewrite (submit_run typed outcome e Htext Hfetch).
  unfold chatted. cbn. rewrite !requests_app. cbn.
  destruct (chat_end outcome); cbn; by rewrite app_nil_r.
Qed.

(** X5. After an exchange that ended with an assistant message (the answer
    or the error sentence), the next submission sends as history the
    earlier messages followed by the user message and that assistant
    message, in this order. *)
Theorem next_submission_carries_the_exchange
    (w : World Env) (text : string) (outcome : result Response) (e : Env)
    (reply : Message) :
  trim (input (ui w)) ≠ "" →
  trim text ≠ "" →
  fetch (chat_request (input (ui w)) (messages (ui w))) (env w) = (outcome, e) →
  chat_end outcome = Ok reply →
  let again := snd (setInput text (snd (submit w))) in
  requests (trace (snd (submit again))) =
    (requests (trace w) ++
     [chat_request (input (ui w)) (messages (ui w));
      chat_request text (messages (ui w) ++ [user_message (input (ui w)); reply])])%list.
Proof.
  intros Hfirst Hsecond Hfetch Hend again. subst again.
  rewrite (submit_run w outcome e Hfirst Hfetch), Hend. cbn [snd].
  destruct (typed_submission_requests text (chatted (Ok reply) e w)) as [Hreq Hmsg];
    [exact Hsecond|].
  rewrite Hreq. unfold chatted. cbn. rewrite !requests_app. cbn.
  by rewrite <- !app_assoc.
Qed.


(** X1. After an [ok] listing whose JSON body is not [null], the document
    list is the body's [documents] when it is truthy and the empty list
    when it is missing or falsy, and the error state is left as it was.
    After an [ok] listing whose JSON body is [null], reading [documents]
    throws: the list is emptied and the error state holds the message of
    that [TypeError]. In both cases one request has been sent. *)
Theorem listing_takes_documents_or_empty
    (w : World Env) (r : Response) (e : Env) (data : json) :
  fetch documents_request (env w) = (Ok r, e) →
  ok r = true →
  json_body r = Ok data →
  let w' := snd (fetchDocuments w) in
  (data ≠ JNull →
   ∃ docs,
     prop data "documents" = Ok docs ∧
     (∀ j, docs = Some j → truthy j = true → documents (ui w') = j) ∧
     (docs = undefined → documents (ui w') = JArr []) ∧
     (∀ j, docs = Some j → truthy j = false → documents (ui w') = JArr []) ∧
     error (ui w') = error (ui w)) ∧
  (data = JNull →
   documents (ui w') = JArr [] ∧
   error (ui w') = Some (null_access_message "documents")) ∧
  requests (trace w') = (requests (trace w) ++ [documents_request])%list.
Proof.
  intros Hfetch Hok Hjson w'. subst w'.
  destruct (prop data "documents") as [docs|err] eqn:Hdocs.
  - rewrite (fetchDocuments_success_run w r e data docs Hfetch Hok Hjson Hdocs).
    cbn. rewrite requests_app. cbn. unfold or_default.
    split; [|split; [by intros ->|done]].
    intros _. exists docs. repeat split; try done.
    + by intros j -> ->.
    + by intros ->.
    + by intros j -> ->.
  - destruct data; try done. injection Hdocs as <-.
    run_page. rewrite Hfetch, Hok. cbn. rewrite Hjson. cbn.
    rewrite <- !app_assoc, requests_app. cbn.
    by repeat split.
Qed.

Lemma uploadFile_dragActive (file : option File) :
  preserves dragActive (uploadFile file).
Proof.
  assert (preserves dragActive (@fetchDocuments Env _))
    by (unfold fetchDocuments; frame).
  unfold uploadFile. frame; done.
Qed.

(** X6. An upload never stays in the [uploading] status: [uploadFile]
    either returns the parsed body with the status [success], or throws
    with the status [error] and the message of what it throws in the error
    state; in both cases the file input is cleared when it is attached. *)
Theorem upload_ends_in_success_or_error (w : World Env) (file : File) :
  let run := uploadFile (Some file) w in
  ((∃ v, fst run = Ok (Some v)) ∧ uploadStatus (ui (snd run)) = UploadStatus.success ∨
   (∃ err, fst run = Throw err ∧
           error (ui (snd run)) = Some (message_or err upload_fallback_message)) ∧
     uploadStatus (ui (snd run)) = UploadStatus.error) ∧
  fileInput (ui (snd run)) = cleared (ui w).
Proof.
  intros run. subst run.
  destruct (fetch (upload_request file) (env w)) as [outcome e] eqn:Hfetch.
  destruct (failure upload_fallback outcome) as [err|] eqn:Hfailure.
  - rewrite (uploadFile_failure_run w file outcome e err Hfetch Hfailure). cbn [fst snd].
    unfold clearFileInput, reported_failure, uploading_world, cleared. cbn.
    destruct (fileInput (ui w)) eqn:Hinput; cbn; rewrite ?Hinput;
      (split; [right; split; [eexists; split; reflexivity|reflexivity]|done]).
  - unfold failure in Hfailure. destruct outcome as [r|]; [|done].
    destruct (ok r) eqn:Hok; [|done].
    destruct (json_body r) as [v|] eqn:Hjson; [|done].
    rewrite (uploadFile_success_run w file r e v Hfetch Hok Hjson). cbn [fst snd].
    pose proof (fetchDocuments_outside_listing (uploading_world file e w)) as Hkeep.
    unfold outside_listing in Hkeep. injection Hkeep as _ _ _ _ _ _ Hinput.
    unfold clearFileInput, reported_success, cleared. cbn. rewrite Hinput. cbn.
    destruct (fileInput (ui w)) eqn:Hattached; cbn; rewrite ?Hinput, ?Hattached;
      (split; [left; split; [eexists; reflexivity|reflexivity]|done]).
Qed.

(** X7. A failed upload sends the upload request and nothing else: the
    document list is not fetched again and stays as it was. *)
Theorem failed_upload_sends_one_request
    (w : World Env) (file : File) (outcome : result Response) (e : Env) :
  fetch (upload_request file) (env w) = (outcome, e) →
  request_failed outcome = true →
  let w' := snd (uploadFile (Some file) w) in
  requests (trace w') = (requests (trace w) ++ [upload_request file])%list ∧
  documents (ui w') = documents (ui w).
Proof.
  intros Hfetch Hfailed w'. subst w'.
  destruct (proj1 (request_failed_failure upload_fallback outcome) Hfailed) as [err Herr].
  rewrite (uploadFile_failure_run w file outcome e err Hfetch Herr). cbn [snd].
  unfold clearFileInput, reported_failure, uploading_world. cbn.
  destruct (fileInput (ui w)); cbn; rewrite !requests_app; cbn;
    rewrite ?app_nil_r; by rewrite ?requests_app; cbn; rewrite ?app_nil_r.
Qed.

(** X8. When the upload succeeds and the listing that follows it fails,
    [uploadFile] still returns the body and sets the status [success],
    while the document list is emptied and the error state holds the
    message of the failed listing. *)
Theorem upload_succeeds_though_refresh_fails
    (w : World Env) (file : File) (r : Response) (e : Env) (v : json)
    (outcome : result Response) (e' : Env) :
  fetch (upload_request file) (env w) = (Ok r, e) →
  ok r = true →
  json_body r = Ok v →
  fetch documents_request e = (outcome, e') →
  request_failed outcome = true →
  let run := uploadFile (Some file) w in
  fst run = Ok (Some v) ∧
  uploadStatus (ui (snd run)) = UploadStatus.success ∧
  documents (ui (snd run)) = JArr [] ∧
  ∃ err, failure listing_fallback outcome = Some err ∧
         error (ui (snd run)) = Some (message_or err "Failed to load documents").
Proof.
  intros Hfetch Hok Hjson Hlist Hfailed run. subst run.
  destruct (proj1 (request_failed_failure listing_fallback outcome) Hfailed) as [err Herr].
  rewrite (uploadFile_success_run w file r e v Hfetch Hok Hjson). cbn [fst snd].
  rewrite (fetchDocuments_failure_run (uploading_world file e w) outcome e' err Hlist Herr).
  unfold clearFileInput, reported_success. cbn.
  destruct (fileInput (ui w)); cbn;
    (split; [done|]; split; [done|]; split; [done|]; exists err; by split).
Qed.


(** X10. [handleFileChange] uploads the first selected file only and
    swallows what [uploadFile] throws; with no file selected it does
    nothing. *)
Theorem file_change_uploads_first_file (w : World Env) (file : File) (others : list File) :
  handleFileChange (file :: others) w = (Ok (), snd (uploadFile (Some file) w)) ∧
  handleFileChange [] w = (Ok (), w).
Proof.
  split; [|done]. unfold handleFileChange. cbn [head].
  unfold try_catch, bind, ret.
  by destruct (uploadFile (Some file) w) as [[|] w'].
Qed.


(** X11. Dropping a file that is neither of type [application/pdf] or
    [text/plain] nor named [*.pdf] or [*.txt] sends no request: the drag
    flag is reset and the error state is set to the refusal. *)
Theorem unsupported_drop_is_refused (w : World Env) (file : File) (others : list File) :
  file_type file ≠ "application/pdf" →
  file_type file ≠ "text/plain" →
  (∀ stem, file_name file ≠ stem +:+ ".pdf") →
  (∀ stem, file_name file ≠ stem +:+ ".txt") →
  handleDrop (file :: others) w =
    (Ok (),
     {| ui := with_error (Some "Only PDF and text files are allowed")
                (with_dragActive false (ui w));
        env := env w;
        trace := (trace w ++ [SetDragActive false;
                              SetError (Some "Only PDF and text files are allowed")])%list |}).
Proof.
  intros Hpdf Hplain Hdotpdf Hdottxt.
  unfold handleDrop. run_page.
  destruct (String.eqb_spec (file_type file) "application/pdf"); [done|].
  destruct (String.eqb_spec (file_type file) "text/plain"); [done|].
  destruct (endsWith (file_name file) ".pdf") eqn:H1.
  { apply endsWith_spec in H1 as [stem H1]. by destruct (Hdotpdf stem). }
  destruct (endsWith (file_name file) ".txt") eqn:H2.
  { apply endsWith_spec in H2 as [stem H2]. by destruct (Hdottxt stem). }
  cbn. by rewrite <- !app_assoc.
Qed.

(** X12. Dropping a file of type [application/pdf] or [text/plain], or
    named [*.pdf] or [*.txt] whatever its type, resets the drag flag and
    uploads that file (the first dropped one), swallowing what
    [uploadFile] throws. *)
Theorem supported_drop_is_uploaded (w : World Env) (file : File) (others : list File) :
  file_type file = "application/pdf" ∨ file_type file = "text/plain" ∨
  (∃ stem, file_name file = stem +:+ ".pdf") ∨
  (∃ stem, file_name file = stem +:+ ".txt") →
  handleDrop (file :: others) w =
    (Ok (), snd (uploadFile (Some file) (snd (setDragActive false w)))) ∧
  dragActive (ui (snd (handleDrop (file :: others) w))) = false.
Proof.
  intros Hsupported.
  assert (Hrun : handleDrop (file :: others) w =
                   (Ok (), snd (uploadFile (Some file) (snd (setDragActive false w))))).
  { unfold handleDrop, bind at 1. cbn [setDragActive update fst snd head].
    assert (Hcond : String.eqb (file_type file) "application/pdf"
                    || String.eqb (file_type file) "text/plain"
                    || endsWith (file_name file) ".pdf"
                    || endsWith (file_name file) ".txt" = true).
    { destruct Hsupported as [H|[H|[H|H]]].
      - rewrite H. by cbn.
      - rewrite H. by cbn.
      - apply endsWith_spec in H. rewrite H. by rewrite !orb_true_r.
      - apply endsWith_spec in H. rewrite H. by rewrite !orb_true_r. }
    rewrite Hcond. unfold try_catch, bind, ret.
    by destruct (uploadFile (Some file) _) as [[|] w']. }
  split; [exact Hrun|]. rewrite Hrun. cbn [snd].
  by rewrite (uploadFile_dragActive (Some file) (snd (setDragActive false w))).
Qed.

(** X14. When the user declines the confirmation, [handleDeleteDocument]
    sends no request and leaves the state as it was. *)
Theorem cancelled_deletion_sends_nothing (w : World Env) (name : string) (e : Env) :
  confirm ("Are you sure you want to delete " +:+ name +:+ "?") (env w) = (false, e) →
  handleDeleteDocument name w =
    (Ok (),
     {| ui := ui w; env := e;
        trace := (trace w ++ [Confirm ("Are you sure you want to delete " +:+ name
                                          +:+ "?")])%list |}).
Proof.
  intros Hconfirm. unfold handleDeleteDocument, bind, do_confirm.
  by rewrite Hconfirm.
Qed.

(** X15. When the [DELETE] request is answered with an error status, the
    document list is not fetched again and stays as it was; the error
    state is set to the body's [detail] when that is a non-empty string,
    and to 'Failed to delete document' when the body has no [detail] or
    is not JSON. *)
Theorem failed_deletion_keeps_list
    (w : World Env) (name : string) (e1 : Env) (r : Response) (e2 : Env) :
  confirm ("Are you sure you want to delete " +:+ name +:+ "?") (env w) = (true, e1) →
  fetch (delete_request name) e1 = (Ok r, e2) →
  ok r = false →
  let w' := snd (handleDeleteDocument name w) in
  documents (ui w') = documents (ui w) ∧
  requests (trace w') = (requests (trace w) ++ [delete_request name])%list ∧
  ∃ msg,
    error (ui w') = Some msg ∧
    (∀ props s, json_body r = Ok (JObj props) →
                assoc "detail" props = Some (JStr s) → s ≠ "" → msg = s) ∧
    (∀ props, json_body r = Ok (JObj props) →
              assoc "detail" props = None → msg = "Failed to delete document") ∧
    (∀ err, json_body r = Throw err → msg = "Failed to delete document").
Proof.
  intros Hconfirm Hfetch Hok w'.
  set (errorData := match json_body r with Ok v => v | Throw _ => JObj [] end).
  set (err := match prop errorData "detail" with
              | Ok d => ErrorObj (ToString (or_default d (JStr "Failed to delete document")))
              | Throw e => e
              end).
  set (msg := message_or err "Failed to delete document").
  assert (Hrun : w' =
    {| ui := with_error (Some msg) (ui w); env := e2;
       trace := (trace w ++ [Confirm ("Are you sure you want to delete " +:+ name +:+ "?");
                             Fetch (delete_request name); SetError (Some msg)])%list |}).
  { subst w' msg err errorData.
    unfold handleDeleteDocument, bind, do_confirm, try_catch, do_fetch, when, await,
      throw, setError, update.
    rewrite Hconfirm. cbn. rewrite Hfetch, Hok. cbn.
    destruct (prop _ "detail"); cbn; by rewrite <- !app_assoc. }
  rewrite Hrun. cbn. rewrite !requests_app. cbn.
  split; [done|]. split; [done|]. exists msg. split; [done|].
  subst msg err errorData. split; [|split].
  - intros props s -> Hd Hs. cbn. rewrite Hd. cbn.
    by destruct (String.eqb_spec s "").
  - intros props -> Hd. cbn. by rewrite Hd.
  - by intros e ->.
Qed.

Lemma drop_rest_dragActive (files : list File) (w : World Env) :
  dragActive (ui (snd (handleDrop files w))) = false.
Proof.
  unfold handleDrop, bind at 1. cbn [setDragActive update fst snd].
  match goal with
  | |- dragActive (ui (snd (?rest ?w1))) = false =>
      assert (Hkeep : preserves dragActive rest);
        [|by rewrite (Hkeep w1)]
  end.
  pose proof uploadFile_dragActive. frame; done.
Qed.

(** X13. Whatever is dropped, and whatever becomes of the upload, the drag
    flag is off once [handleDrop] is over. *)
Theorem drop_always_ends_drag (files : list File) (w : World Env) :
  dragActive (ui (snd (handleDrop files w))) = false ∧
  ∃ later, trace (snd (handleDrop files w)) = (trace w ++ SetDragActive false :: later)%list.
Proof.
  split; [apply drop_rest_dragActive|].
  unfold handleDrop, bind at 1. cbn [setDragActive update fst snd].
  destruct files as [|file others]; cbn [head].
  - exists []. by cbn.
  - destruct (_ || _).
    + unfold try_catch, bind, ret.
      destruct (uploadFile_sends_form
                  {| ui := with_dragActive false (ui w); env := env w;
                     trace := (trace w ++ [SetDragActive false])%list |} file)
        as [later Hlater].
      destruct (uploadFile (Some file) _) as [[|] w'] eqn:Hrun; cbn in *;
        rewrite Hlater, <- !app_assoc; by eexists.
    + cbn. rewrite <- !app_assoc. by eexists.
Qed.

End FurtherPageFacts.

(** ** Further properties of the proxy route *)

Section FurtherProxyFacts.
Import Proxy.

Lemma header_set_prop (k k' v : string) (hs : list (string * string)) :
  header k (set_prop k' v hs) = if String.eqb k k' then Some v else header k hs.
Proof.
  induction hs as [|[k0 v0] hs IH]; cbn; [done|].
  destruct (String.eqb_spec k' k0) as [->|Hne]; cbn.
  - by destruct (String.eqb_spec k k0).
  - rewrite IH. destruct (String.eqb_spec k k0) as [->|]; [|done].
    destruct (String.eqb_spec k0 k'); congruence.
Qed.

Lemma header_spread_absent (k : string) (base over : list (string * string)) :
  header k over = None → header k (spread base over) = header k base.
Proof.
  unfold spread. revert base. induction over as [|[k0 v0] over IH]; intros base; cbn;
    [done|].
  destruct (String.eqb_spec k k0); [done|]. intros Hover.
  rewrite (IH _ Hover), header_set_prop. cbn.
  by destruct (String.eqb_spec k k0).
Qed.

Lemma header_spread_present (k v : string) (base over : list (string * string)) :
  NoDup (fst <$> over) → (k, v) ∈ over → header k (spread base over) = Some v.
Proof.
  unfold spread. revert base. induction over as [|[k0 v0] over IH]; intros base; cbn.
  - by intros _ ?%elem_of_nil.
  - intros [Hfresh Hrest]%NoDup_cons [[= -> ->]|Hin]%elem_of_cons.
    + assert (Habsent : header k0 over = None).
      { clear -Hfresh. induction over as [|[k1 v1] over IH]; cbn; [done|].
        destruct (String.eqb_spec k0 k1) as [->|].
        - destruct Hfresh. cbn. left.
        - apply IH. intros ?. apply Hfresh. cbn. by right. }
      change (header k0 (spread (set_prop k0 v0 base) over) = Some v0).
      rewrite (header_spread_absent _ _ _ Habsent), header_set_prop.
      by rewrite String.eqb_refl.
    + by apply IH.
Qed.

(** X16. The proxy forwards every header of the incoming request with its
    value, adds [Content-Type: application/json] when the request has no
    header spelled exactly [Content-Type], and adds nothing else. *)
Theorem proxy_forwards_headers
    (NEXT_PUBLIC_API_URL : option string) (req : NextApiRequest) :
  let sent := fwd_headers (forwarded NEXT_PUBLIC_API_URL req) in
  (NoDup (fst <$> headers req) →
   ∀ k v, (k, v) ∈ headers req → header k sent = Some v) ∧
  (header "Content-Type" (headers req) = None →
   header "Content-Type" sent = Some "application/json") ∧
  (∀ k, k ≠ "Content-Type" → header k (headers req) = None → header k sent = None).
Proof.
  intros sent. subst sent. cbn. repeat split.
  - intros Hkeys k v Hin. by apply header_spread_present.
  - intros Habsent. by rewrite header_spread_absent.
  - intros k Hk Habsent. rewrite header_spread_absent by done. cbn.
    by destruct (String.eqb_spec k "Content-Type").
Qed.

End FurtherProxyFacts.

Lemma proxy_reply_failed
    (NEXT_PUBLIC_API_URL : option string)
    (backend : Proxy.Forwarded → result Response) (req : Proxy.NextApiRequest) :
  request_failed_unparsed (backend (Proxy.forwarded NEXT_PUBLIC_API_URL req)) = true →
  Proxy.reply_status (Proxy.handler NEXT_PUBLIC_API_URL backend req) = 500%Z ∧
  Proxy.reply_json (Proxy.handler NEXT_PUBLIC_API_URL backend req) =
    JObj [("error", JStr "Internal Server Error")].
Proof.
  unfold Proxy.handler, request_failed_unparsed.
  destruct (backend _) as [response|]; [|done].
  by destruct (json_body response).
Qed.

(** ** The page behind the proxy *)

Section BehindProxy.
Context {Env : Type} `{!Platform Env}.

(** X17. When the page receives the reply the proxy gives on a failure,
    the error it shows after an upload or a listing is the JSON text of
    the whole body [{ error: 'Internal Server Error' }], since that body
    has no [detail]; the listing is emptied as well. *)
Theorem proxy_failure_shows_as_json_text
    (NEXT_PUBLIC_API_URL : option string)
    (backend : Proxy.Forwarded → result Response) (req : Proxy.NextApiRequest)
    (w : World Env) (file : File) (r : Response) (e : Env) :
  request_failed_unparsed (backend (Proxy.forwarded NEXT_PUBLIC_API_URL req)) = true →
  let reply := Proxy.handler NEXT_PUBLIC_API_URL backend req in
  status r = Proxy.reply_status reply →
  json_body r = Ok (Proxy.reply_json reply) →
  let shown := JSON_stringify (JObj [("error", JStr "Internal Server Error")]) in
  (fetch (upload_request file) (env w) = (Ok r, e) →
   error (ui (snd (uploadFile (Some file) w))) = Some shown) ∧
  (fetch documents_request (env w) = (Ok r, e) →
   error (ui (snd (fetchDocuments w))) = Some shown ∧
   documents (ui (snd (fetchDocuments w))) = JArr []).
Proof.
  intros Hfailed reply Hstatus Hjson shown.
  destruct (proxy_reply_failed NEXT_PUBLIC_API_URL backend req Hfailed) as [Hs Hb].
  fold reply in Hs, Hb. rewrite Hs in Hstatus. rewrite Hb in Hjson.
  assert (Hok : ok r = false) by (unfold ok; by rewrite Hstatus).
  assert (Herr : ∀ fallback, http_error fallback r = ErrorObj shown).
  { intros fallback. unfold http_error. by rewrite Hjson. }
  split.
  - intros Hfetch.
    rewrite (uploadFile_failure_run w file (Ok r) e (ErrorObj shown) Hfetch).
    + unfold clearFileInput, reported_failure, uploading_world. cbn.
      by destruct (fileInput (ui w)).
    + unfold failure. by rewrite Hok, Herr.
  - intros Hfetch.
    by rewrite (fetchDocuments_failure_run w (Ok r) e (ErrorObj shown) Hfetch);
      [|unfold failure; rewrite Hok, Herr].
Qed.

End BehindProxy.

(** ** The further properties at work on sample runs *)

Section FurtherWitnesses.
Import Scripted.

Lemma listing_takes_documents_or_empty_witness :
  let w := Cases.serving [Ok Cases.bare_listing; Ok Cases.null_listing] [] in
  let w' := snd (fetchDocuments w) in
  ok Cases.bare_listing = true ∧
  ok Cases.null_listing = true ∧
  (documents (ui w') = JArr [] ∧ error (ui w') = None) ∧
  (documents (ui (snd (fetchDocuments w'))) = JArr [] ∧
   error (ui (snd (fetchDocuments w'))) =
     Some "Cannot read properties of null (reading 'documents')").
Proof.
  intros w w'. split; [reflexivity|]. split; [reflexivity|]. split.
  - destruct (@listing_takes_documents_or_empty Scripted.t Scripted.platform w
                Cases.bare_listing (Scripted.mkScripted [Ok Cases.null_listing] [])
                (JObj []) ltac:(reflexivity) ltac:(reflexivity) ltac:(reflexivity))
      as (Hobject & _).
    destruct (Hobject ltac:(discriminate)) as (docs & Hdocs & _ & Hmissing & _ & Herror).
    injection Hdocs as <-. split; [exact (Hmissing eq_refl)|exact Herror].
  - destruct (@listing_takes_documents_or_empty Scripted.t Scripted.platform w'
                Cases.null_listing (Scripted.mkScripted [] [])
                JNull ltac:(reflexivity) ltac:(reflexivity) ltac:(reflexivity))
      as (_ & Hnull & _).
    exact (Hnull eq_refl).
Defined.

Lemma chat_leaves_the_rest_alone_witness :
  trim (input (ui Cases.busy)) ≠ "" ∧
  outside_chat (ui (snd (submit Cases.busy))) = outside_chat (ui Cases.busy) ∧
  isLoading (ui (snd (submit Cases.busy))) = false.
Proof.
  assert (Hinput : trim (input (ui Cases.busy)) ≠ "") by (vm_compute; discriminate).
  split; [exact Hinput|].
  destruct (@chat_leaves_the_rest_alone Scripted.t Scripted.platform (ui Cases.busy) Cases.busy) as [Hrest Hchat].
  split; [exact Hrest|]. exact (proj1 (Hchat Hinput)).
Defined.

Lemma next_submission_carries_the_exchange_witness :
  let w := Sample.asking "What is the rate?" [Ok Sample.answer; Ok Sample.answer] in
  let reply := {| role := assistant; content := Some (JStr "The rate is 4.5.");
                  source := Some (JStr "rates.txt") |} in
  trim (input (ui w)) ≠ "" ∧ trim "And the term?" ≠ "" ∧
  chat_end (Ok Sample.answer) = Ok reply ∧
  requests (trace (snd (submit (snd (setInput "And the term?" (snd (submit w)))))))
  = [chat_request "What is the rate?" [];
     chat_request "And the term?" [user_message "What is the rate?"; reply]].
Proof.
  intros w reply.
  assert (H1 : trim (input (ui w)) ≠ "") by (vm_compute; discriminate).
  assert (H2 : trim "And the term?" ≠ "") by (vm_compute; discriminate).
  split; [exact H1|]. split; [exact H2|]. split; [reflexivity|].
  exact (@next_submission_carries_the_exchange Scripted.t Scripted.platform w "And the term?" (Ok Sample.answer)
           (Scripted.mkScripted [Ok Sample.answer] []) reply H1 H2 ltac:(reflexivity) ltac:(reflexivity)).
Defined.

Lemma failed_upload_sends_one_request_witness :
  let w := Cases.serving [Ok Sample.bad_gateway; Ok Cases.listing_of_rates] [] in
  request_failed (Ok Sample.bad_gateway) = true ∧
  requests (trace (snd (uploadFile (Some Sample.notes) w))) = [upload_request Sample.notes].
Proof.
  intros w. split; [reflexivity|].
  exact (proj1 (@failed_upload_sends_one_request Scripted.t Scripted.platform w Sample.notes (Ok Sample.bad_gateway)
                  (Scripted.mkScripted [Ok Cases.listing_of_rates] []) ltac:(reflexivity) ltac:(reflexivity))).
Defined.

Lemma upload_succeeds_though_refresh_fails_witness :
  let w := Cases.serving [Ok Cases.upload_confirmed; Ok Sample.bad_gateway] [] in
  ok Cases.upload_confirmed = true ∧
  request_failed (Ok Sample.bad_gateway) = true ∧
  uploadStatus (ui (snd (uploadFile (Some Sample.notes) w))) = UploadStatus.success ∧
  documents (ui (snd (uploadFile (Some Sample.notes) w))) = JArr [].
Proof.
  intros w. split; [reflexivity|]. split; [reflexivity|].
  destruct (@upload_succeeds_though_refresh_fails Scripted.t Scripted.platform w Sample.notes Cases.upload_confirmed
              (Scripted.mkScripted [Ok Sample.bad_gateway] [])
              (JObj [("message", JStr "Document uploaded")])
              (Ok Sample.bad_gateway) (Scripted.mkScripted [] [])
              ltac:(reflexivity) ltac:(reflexivity) ltac:(reflexivity) ltac:(reflexivity) ltac:(reflexivity)) as (_ & Hstatus & Hdocs & _).
  split; [exact Hstatus|exact Hdocs].
Defined.


Lemma unsupported_drop_is_refused_witness :
  let w := Cases.serving [Ok Cases.upload_confirmed] [] in
  let photo := dropped "photo.png" "image/png" in
  endsWith "photo.png" ".pdf" = false ∧ endsWith "photo.png" ".txt" = false ∧
  requests (trace (snd (handleDrop [photo] w))) = [] ∧
  error (ui (snd (handleDrop [photo] w))) = Some "Only PDF and text files are allowed".
Proof.
  intros w photo. split; [reflexivity|]. split; [reflexivity|].
  assert (Hpdf : ∀ stem, file_name photo ≠ stem +:+ ".pdf").
  { intros stem H. assert (Hends : endsWith "photo.png" ".pdf" = true)
      by (apply endsWith_spec; by exists stem).
    discriminate Hends. }
  assert (Htxt : ∀ stem, file_name photo ≠ stem +:+ ".txt").
  { intros stem H. assert (Hends : endsWith "photo.png" ".txt" = true)
      by (apply endsWith_spec; by exists stem).
    discriminate Hends. }
  rewrite (@unsupported_drop_is_refused Scripted.t Scripted.platform w photo [] ltac:(discriminate) ltac:(discriminate)
             Hpdf Htxt).
  split; reflexivity.
Defined.

Lemma supported_drop_is_uploaded_witness :
  let w := Cases.serving [Ok Cases.upload_confirmed; Ok Cases.listing_of_rates] [] in
  let notes := dropped "notes.txt" "" in
  file_name notes = "notes" +:+ ".txt" ∧
  requests (trace (snd (handleDrop [notes; Sample.rates] w)))
  = [upload_request notes; documents_request].
Proof.
  intros w notes. split; [reflexivity|].
  destruct (@supported_drop_is_uploaded Scripted.t Scripted.platform w notes [Sample.rates]) as [Hrun _].
  { right. right. right. by exists "notes". }
  rewrite Hrun. reflexivity.
Defined.

Lemma cancelled_deletion_sends_nothing_witness :
  let w := Cases.serving [Ok Cases.upload_confirmed] [false] in
  confirm "Are you sure you want to delete rates.txt?" (env w)
  = (false, Scripted.mkScripted [Ok Cases.upload_confirmed] []) ∧
  requests (trace (snd (handleDeleteDocument "rates.txt" w))) = [] ∧
  ui (snd (handleDeleteDocument "rates.txt" w)) = ui w.
Proof.
  intros w. split; [reflexivity|].
  rewrite (@cancelled_deletion_sends_nothing Scripted.t Scripted.platform w "rates.txt"
             (Scripted.mkScripted [Ok Cases.upload_confirmed] []) ltac:(reflexivity)).
  split; reflexivity.
Defined.

Lemma failed_deletion_keeps_list_witness :
  let w := {| ui := ui Cases.busy;
              env := Scripted.mkScripted [Ok Cases.not_found; Ok Cases.bare_listing] [true];
              trace := [] |} in
  ok Cases.not_found = false ∧
  documents (ui (snd (handleDeleteDocument "terms.txt" w))) = documents (ui w) ∧
  error (ui (snd (handleDeleteDocument "terms.txt" w))) = Some "Document not found".
Proof.
  intros w. split; [reflexivity|].
  destruct (@failed_deletion_keeps_list Scripted.t Scripted.platform w "terms.txt"
              (Scripted.mkScripted [Ok Cases.not_found; Ok Cases.bare_listing] [])
              Cases.not_found (Scripted.mkScripted [Ok Cases.bare_listing] [])
              ltac:(reflexivity) ltac:(reflexivity) ltac:(reflexivity)) as (Hdocs & _ & msg & Herror & Hdetail & _).
  split; [exact Hdocs|].
  rewrite Herror. f_equal.
  apply (Hdetail [("detail", JStr "Document not found")]); [reflexivity|reflexivity|].
  discriminate.
Defined.

Lemma proxy_forwards_headers_witness :
  let sent := Proxy.fwd_headers (Proxy.forwarded None Cases.through_proxy) in
  NoDup (fst <$> Proxy.headers Cases.through_proxy) ∧
  header "Content-Type" (Proxy.headers Cases.through_proxy) = None ∧
  header "content-type" sent = Some "application/json" ∧
  header "Content-Type" sent = Some "application/json" ∧
  header "host" sent = Some "localhost:3000".
Proof.
  intros sent.
  assert (Hkeys : NoDup (fst <$> Proxy.headers Cases.through_proxy)).
  { apply (bool_decide_unpack _). vm_compute. exact I. }
  split; [exact Hkeys|]. split; [reflexivity|].
  destruct (proxy_forwards_headers None Cases.through_proxy) as (Hall & Hdefault & _).
  split; [|split].
  - apply (Hall Hkeys). cbn. apply elem_of_cons. right. apply elem_of_cons. by left.
  - apply Hdefault. reflexivity.
  - apply (Hall Hkeys). cbn. apply elem_of_cons. by left.
Defined.

Lemma proxy_failure_shows_as_json_text_witness :
  let w := Cases.serving [Ok Cases.proxy_down] [] in
  request_failed_unparsed
    (Sample.unreachable (Proxy.forwarded None Sample.listing_through_proxy)) = true ∧
  error (ui (snd (fetchDocuments w)))
  = Some (JSON_stringify (JObj [("error", JStr "Internal Server Error")])) ∧
  rendered_error (ui (snd (fetchDocuments w))) ≠ None.
Proof.
  intros w. split; [reflexivity|].
  destruct (@proxy_failure_shows_as_json_text Scripted.t Scripted.platform None Sample.unreachable
              Sample.listing_through_proxy w Sample.notes Cases.proxy_down
              (Scripted.mkScripted [] []) ltac:(reflexivity) ltac:(reflexivity) ltac:(reflexivity)) as [_ Hlisting].
  destruct (Hlisting ltac:(reflexivity)) as [Herror _].
  split; [exact Herror|]. vm_compute. discriminate.
Defined.

End FurtherWitnesses.
